(** * Lab 3, IR spectra: the potential-energy-surface analysis of
      [Lab_3_IR_Spectra/IR_Analysis.ipynb]

    The notebook fits a cubic spline to Hartree-Fock energies of HF,
    evaluates it on a fine grid, takes the grid point of least energy as
    the equilibrium bond length and turns curvature and reduced mass into
    a vibrational energy.

    Conventions of the embedding.
    - In the modules [Numpy], [Analysis] and [Notebook] a Python float is
      read as the real number it denotes: arithmetic is the exact
      arithmetic of [R], there is no rounding, no NaN and no infinity, and
      [np.pi] is read as [PI].  Statements about all inputs are proved
      there.
    - The module [Binary64] writes the same expressions over the machine
      floats Python computes with (IEEE 754 binary64, round to nearest
      even), so that they can be evaluated bit for bit on given inputs.
    - A list or ndarray of floats is a [list R]; a fitted spline object,
      which the notebook only ever calls on arguments, is a function
      [R -> R].
    - The notebook's global namespace is a record with one optional field
      per variable ([None]: the name is not bound); a code cell is a
      computation in a state-and-exception monad over that record.
    - [print] and the [matplotlib] calls are modelled by what they read
      (an unbound name raises [NameError]) and by the length check of
      [plt.plot]; what they display is not recorded.
    - Cells are numbered by position, counting every cell of the notebook
      from 0.  The analysis is cells 11 to 26; [Notebook] holds these.
    - The module [Kernel] holds all code cells from 1 to 26, the imports
      and the two loaders included, over a state in which lists and
      arrays are objects on a heap and names are bound to locations, so
      that [append] changes an object in place and two names can share
      one.  What pandas and psi4 return, or raise, is given by a [world].
    - The cells after cell 26 run a psi4 calculation on water of their
      own; they bind no list or array and no name that an earlier cell
      reads, and are not embedded, nor are the insides of scipy's spline
      object. *)

From Stdlib Require Import String Reals Lra Lia Arith Bool List.
From Stdlib Require PrimFloat Uint63 ZArith SpecFloat FloatOps FloatAxioms.
Import ListNotations.

Set Warnings "-inexact-float".

Open Scope R_scope.

(** ** The two numpy functions the notebook calls *)

Module Numpy.

(** [np.linspace(start, stop, num)] with the default [endpoint=True]:
    [div = num - 1], [step = (stop - start) / div],
    [y = arange(0, num) * step + start], and, when [num > 1], the last
    sample is overwritten with [stop]. *)
Definition linspace (start stop : R) (num : nat) : list R :=
  let div := (num - 1)%nat in
  let step := (stop - start) / INR div in
  map (fun i : nat =>
         if ((1 <? num)%nat && (i =? div)%nat)%bool then stop
         else INR i * step + start)
      (seq 0 num).

(** The scan of [np.argmin]: [mp] is the least value met so far and
    [min_ind] its index; a later element replaces it only when it is
    strictly smaller, so the first occurrence of the minimum wins. *)
Fixpoint argmin_from (a : list R) (i : nat) (mp : R) (min_ind : nat) : nat :=
  match a with
  | [] => min_ind
  | x :: a' =>
      if Rlt_dec x mp then argmin_from a' (S i) x i
      else argmin_from a' (S i) mp min_ind
  end.

(** [np.argmin(a)]; [None] stands for the [ValueError] numpy raises on an
    empty sequence. *)
Definition argmin (a : list R) : option nat :=
  match a with
  | [] => None
  | x :: a' => Some (argmin_from a' 1 x 0)
  end.

End Numpy.

(** ** The expressions of the notebook *)

Module Analysis.

(** Cell 13: [r_fine = np.linspace(0.5*1.89,2.3*1.89,200)]. *)
Definition r_fine : list R :=
  Numpy.linspace (0.5 * 1.89) (2.3 * 1.89) 200.

(** Cell 13: [E_fine = E_spline(r_fine)]; calling a spline on an array
    evaluates it at every element. *)
Definition E_fine (E_spline : R -> R) (r_fine : list R) : list R :=
  map E_spline r_fine.

(** Cell 18: [Req_idx = np.argmin(E_fine)]. *)
Definition Req_idx (E_fine : list R) : option nat :=
  Numpy.argmin E_fine.

(** Cell 18: [Req = r_fine[Req_idx]]; [None] stands for [IndexError]. *)
Definition Req (r_fine : list R) (Req_idx : nat) : option R :=
  nth_error r_fine Req_idx.

(** The Extremum Locator as a whole: both statements of cell 18 applied to
    a grid and the energies on it. *)
Definition locate (r_fine E_fine : list R) : option R :=
  match Req_idx E_fine with
  | Some i => Req r_fine i
  | None => None
  end.

(** Cell 18: [mH = 1836.] and [mF = 34883.]. *)
Definition mH : R := 1836.
Definition mF : R := 34883.

(** Modelled from the spec: the assignment to [mu], for which cell 18 has
    only the placeholder string "compute reduced mass and store it to
    variable mu here!".  Section 4.4 of the specification, like the
    notebook's own text, gives mu = (m_H * m_F) / (m_H + m_F). *)
Definition reduced_mass (m1 m2 : R) : R := (m1 * m2) / (m1 + m2).
Definition mu : R := reduced_mass mH mF.

(** Cell 21: [E_vib_au = 2 * np.pi * nu]. *)
Definition E_vib_au (nu : R) : R := 2 * PI * nu.

(** A value quoted to one decimal place, such as 1743.0, stands for the
    numbers within half a unit of that place. *)
Definition to_one_decimal (x quoted : R) : Prop := Rabs (x - quoted) <= 0.05.

End Analysis.

(** ** The same expressions in binary64 *)

Module Binary64.

Import PrimFloat.

(** An array index as a float, as [arange] produces it. *)
Definition of_index (i : nat) : float :=
  of_uint63 (Uint63.of_Z (BinInt.Z.of_nat i)).

(** [np.linspace(start, stop, num)]: [delta = stop - start]; when
    [div = num - 1] is positive, [step = delta / div] and
    [y = arange(0, num) * step] (or [y / div * delta] should the step
    have underflowed to zero), else [y = arange(0, num) * delta]; then
    [y += start], and for [num > 1] the last sample is set to [stop]. *)
Definition linspace (start stop : float) (num : nat) : list float :=
  let div := (num - 1)%nat in
  let delta := (stop - start)%float in
  let step := (delta / of_index div)%float in
  map (fun i : nat =>
         if ((1 <? num)%nat && (i =? div)%nat)%bool then stop
         else if (0 <? div)%nat then
                if (step =? 0)%float
                then (of_index i / of_index div * delta + start)%float
                else (of_index i * step + start)%float
              else (of_index i * delta + start)%float)
      (seq 0 num).

(** The scan of [np.argmin] on floats: an element replaces the running
    minimum [mp] when it is not [>= mp], and a NaN, once met, is the
    answer. *)
Fixpoint argmin_from (a : list float) (i : nat) (mp : float) (min_ind : nat)
  : nat :=
  match a with
  | [] => min_ind
  | x :: a' =>
      if negb (mp <=? x)%float then
        if is_nan x then i else argmin_from a' (S i) x i
      else argmin_from a' (S i) mp min_ind
  end.

Definition argmin (a : list float) : option nat :=
  match a with
  | [] => None
  | x :: a' => if is_nan x then Some 0%nat else Some (argmin_from a' 1 x 0)
  end.

(** Cell 13. *)
Definition r_min : float := (0.5 * 1.89)%float.
Definition r_max : float := (2.3 * 1.89)%float.
Definition r_fine : list float := linspace r_min r_max 200.

Definition E_fine (E_spline : float -> float) (r_fine : list float)
  : list float :=
  map E_spline r_fine.

(** Cell 18. *)
Definition locate (r_fine E_fine : list float) : option float :=
  match argmin E_fine with
  | Some i => nth_error r_fine i
  | None => None
  end.

Definition mH : float := 1836%float.
Definition mF : float := 34883%float.

(** Modelled from the spec: the assignment to [mu] that cell 18 leaves as
    a placeholder string; section 4.4 gives (m_H * m_F) / (m_H + m_F). *)
Definition mu : float := (mH * mF / (mH + mF))%float.

(** Cell 21, with [np.pi] the float nearest to pi. *)
Definition np_pi : float := 3.141592653589793%float.

Definition E_vib_au (nu : float) : float := (2 * np_pi * nu)%float.

(** Modelled from the spec: the assignment to [nu] that cell 21 leaves as
    a placeholder string; section 4.4 gives (1 / 2 pi) * sqrt (k / mu),
    evaluated here as Python evaluates [1/(2*np.pi) * np.sqrt(k/mu)]. *)
Definition harmonic_nu (k mu : float) : float :=
  (1 / (2 * np_pi) * sqrt (k / mu))%float.

(** Checks on lists of floats. *)
Definition no_nan (l : list float) : bool :=
  forallb (fun x => negb (is_nan x)) l.

Definition within (lo hi x : float) : bool :=
  ((lo <=? x)%float && (x <=? hi)%float)%bool.

Fixpoint increasing (l : list float) : bool :=
  match l with
  | x :: (y :: _) as t => ((x <? y)%float && increasing t)%bool
  | _ => true
  end.

(** Consecutive elements differ by [step], give or take [tol]. *)
Fixpoint evenly (tol step : float) (l : list float) : bool :=
  match l with
  | x :: (y :: _) as t =>
      ((abs (y - x - step) <=? tol)%float && evenly tol step t)%bool
  | _ => true
  end.

End Binary64.

(** ** The notebook as a program *)

Module Notebook.

(** The global namespace.  Cells 13 to 26 read or assign exactly these
    names; [None] is an unbound name. *)
Record env : Type := mk_env {
  r_array_au : option (list R);
  E_array : option (list R);
  E_spline : option (R -> R);
  r_fine : option (list R);
  E_fine : option (list R);
  Force_fine : option (list R);
  Req_idx : option nat;
  Req : option R;
  mH : option R;
  mF : option R;
  mu : option R;
  Force_Constant : option R;
  nu : option R;
  E_vib_au : option R;
  Harm_Pot : option (list R)
}.

(** A kernel that has run only the imports. *)
Definition fresh : env :=
  mk_env None None None None None None None None None None None None None
         None None.

(** Assignment statements, one per name the code assigns. *)
Definition set_r_fine (v : list R) (e : env) : env :=
  mk_env (r_array_au e) (E_array e) (E_spline e) (Some v) (E_fine e)
         (Force_fine e) (Req_idx e) (Req e) (mH e) (mF e) (mu e)
         (Force_Constant e) (nu e) (E_vib_au e) (Harm_Pot e).

Definition set_E_fine (v : list R) (e : env) : env :=
  mk_env (r_array_au e) (E_array e) (E_spline e) (r_fine e) (Some v)
         (Force_fine e) (Req_idx e) (Req e) (mH e) (mF e) (mu e)
         (Force_Constant e) (nu e) (E_vib_au e) (Harm_Pot e).

Definition set_Req_idx (v : nat) (e : env) : env :=
  mk_env (r_array_au e) (E_array e) (E_spline e) (r_fine e) (E_fine e)
         (Force_fine e) (Some v) (Req e) (mH e) (mF e) (mu e)
         (Force_Constant e) (nu e) (E_vib_au e) (Harm_Pot e).

Definition set_Req (v : R) (e : env) : env :=
  mk_env (r_array_au e) (E_array e) (E_spline e) (r_fine e) (E_fine e)
         (Force_fine e) (Req_idx e) (Some v) (mH e) (mF e) (mu e)
         (Force_Constant e) (nu e) (E_vib_au e) (Harm_Pot e).

Definition set_mH (v : R) (e : env) : env :=
  mk_env (r_array_au e) (E_array e) (E_spline e) (r_fine e) (E_fine e)
         (Force_fine e) (Req_idx e) (Req e) (Some v) (mF e) (mu e)
         (Force_Constant e) (nu e) (E_vib_au e) (Harm_Pot e).

Definition set_mF (v : R) (e : env) : env :=
  mk_env (r_array_au e) (E_array e) (E_spline e) (r_fine e) (E_fine e)
         (Force_fine e) (Req_idx e) (Req e) (mH e) (Some v) (mu e)
         (Force_Constant e) (nu e) (E_vib_au e) (Harm_Pot e).

Definition set_E_vib_au (v : R) (e : env) : env :=
  mk_env (r_array_au e) (E_array e) (E_spline e) (r_fine e) (E_fine e)
         (Force_fine e) (Req_idx e) (Req e) (mH e) (mF e) (mu e)
         (Force_Constant e) (nu e) (Some v) (Harm_Pot e).

(** Exceptions.  The first three are those the statements of the cells
    can raise.  The last three are the error names of the specification;
    they are here so that statements about them can be written, and no
    statement of the notebook raises or defines them. *)
Inductive exn : Type :=
| NameError (name : string)
| ValueError
| IndexError
| InsufficientDataError
| NonMonotonicInputError
| NonPhysicalCurvatureError.

Inductive outcome (A : Type) : Type :=
| Returned (a : A)
| Raised (x : exn).

Arguments Returned {A} a.
Arguments Raised {A} x.

(** A statement transforms the namespace and either returns or raises;
    what it assigned before raising stays assigned. *)
Definition M (A : Type) : Type := env -> env * outcome A.

Definition ret {A : Type} (a : A) : M A := fun e => (e, Returned a).

Definition raise {A : Type} (x : exn) : M A := fun e => (e, Raised x).

Definition bind {A B : Type} (m : M A) (k : A -> M B) : M B :=
  fun e =>
    match m e with
    | (e', Returned a) => k a e'
    | (e', Raised x) => (e', Raised x)
    end.

Notation "x <- m ;; k" := (bind m (fun x => k))
  (at level 61, m at next level, right associativity).
Notation "m ;;; k" := (bind m (fun _ => k))
  (at level 61, right associativity).

(** Reading a global name. *)
Definition load {A : Type} (field : env -> option A) (name : string) : M A :=
  fun e =>
    match field e with
    | Some v => (e, Returned v)
    | None => (e, Raised (NameError name))
    end.

(** Assigning a global name. *)
Definition store {A : Type} (set : A -> env -> env) (v : A) : M unit :=
  fun e => (set v e, Returned tt).

Definition lift {A : Type} (x : exn) (o : option A) : M A :=
  match o with
  | Some v => ret v
  | None => raise x
  end.

(** [plt.plot(x, y, ...)] refuses sequences of different lengths. *)
Definition plt_plot (x y : list R) : M unit :=
  if (length x =? length y)%nat then ret tt else raise ValueError.

(** [print(...)] of values already loaded. *)
Definition print : M unit := ret tt.

(** The code cells of the analysis, numbered by their position in the
    notebook. *)
Inductive cell : Type := Cell11 | Cell13 | Cell16 | Cell18 | Cell21 | Cell24 | Cell26.

(** Cell 11, the Spline Fitter's cell: two string literals used as
    placeholders, "Create array of bond lengths in atomic units called
    r_array_au and fit PES to splines in this cell!" and "create a cubic
    spline called 'E_spline' ... here!".  An expression statement that is
    a string literal does nothing. *)
Definition cell11 : M unit := ret tt.

Definition cell13 : M unit :=
  store set_r_fine Analysis.r_fine ;;;
  f <- load E_spline "E_spline" ;;
  x <- load r_fine "r_fine" ;;
  store set_E_fine (Analysis.E_fine f x) ;;;
  x <- load r_fine "r_fine" ;;
  y <- load E_fine "E_fine" ;;
  plt_plot x y ;;;
  x <- load r_array_au "r_array_au" ;;
  y <- load E_array "E_array" ;;
  plt_plot x y.

(** Cell 16: placeholder strings for the differentiation, then the plot
    of [Force_fine]. *)
Definition cell16 : M unit :=
  x <- load r_fine "r_fine" ;;
  y <- load Force_fine "Force_fine" ;;
  plt_plot x y.

Definition cell18 : M unit :=
  a <- load E_fine "E_fine" ;;
  i <- lift ValueError (Analysis.Req_idx a) ;;
  store set_Req_idx i ;;;
  x <- load r_fine "r_fine" ;;
  i <- load Req_idx "Req_idx" ;;
  r <- lift IndexError (Analysis.Req x i) ;;
  store set_Req r ;;;
  _ <- load Req "Req" ;;
  print ;;;
  _ <- load Req "Req" ;;
  print ;;;
  store set_mH Analysis.mH ;;;
  store set_mF Analysis.mF ;;;
  _ <- load mu "mu" ;;
  print.

(** Cell 21: placeholder strings where [Force_Constant] and [nu] are to
    be computed, then the statements that use them. *)
Definition cell21 : M unit :=
  _ <- load Force_Constant "Force_Constant" ;;
  print ;;;
  _ <- load nu "nu" ;;
  print ;;;
  v <- load nu "nu" ;;
  store set_E_vib_au (Analysis.E_vib_au v) ;;;
  _ <- load E_vib_au "E_vib_au" ;;
  print.

(** Cell 24: a placeholder string only. *)
Definition cell24 : M unit := ret tt.

Definition cell26 : M unit :=
  x <- load r_fine "r_fine" ;;
  y <- load Harm_Pot "Harm_Pot" ;;
  plt_plot x y ;;;
  x <- load r_fine "r_fine" ;;
  y <- load E_fine "E_fine" ;;
  plt_plot x y.

Definition code (c : cell) : M unit :=
  match c with
  | Cell11 => cell11
  | Cell13 => cell13
  | Cell16 => cell16
  | Cell18 => cell18
  | Cell21 => cell21
  | Cell24 => cell24
  | Cell26 => cell26
  end.

(** The namespace after a cell has run, whether it returned or raised. *)
Definition exec (c : cell) (e : env) : env := fst (code c e).

(** Cells run one after another, in any order and any number of times, as
    a notebook allows; a cell that raises ends only itself. *)
Definition exec_all (cs : list cell) (e : env) : env :=
  fold_left (fun e' c => exec c e') cs e.

(** The same, keeping the outcome of each cell. *)
Fixpoint outcomes (cs : list cell) (e : env) : list (outcome unit) :=
  match cs with
  | [] => []
  | c :: cs' => snd (code c e) :: outcomes cs' (exec c e)
  end.

(** The cells in notebook order. *)
Definition notebook : list cell := [Cell11; Cell13; Cell16; Cell18; Cell21; Cell24; Cell26].

(** A namespace in which the stages have built their results from the
    spline [f]: the grid and the energies on it (cell 13), the minimum and
    the two masses (cell 18), and the vibrational energy when [nu] is
    bound (cell 21). *)
Definition built (f : R -> R) (e : env) : Prop :=
  E_spline e = Some f
  /\ r_fine e = Some Analysis.r_fine
  /\ E_fine e = Some (Analysis.E_fine f Analysis.r_fine)
  /\ Req_idx e = Analysis.Req_idx (Analysis.E_fine f Analysis.r_fine)
  /\ Req e = Analysis.locate Analysis.r_fine
               (Analysis.E_fine f Analysis.r_fine)
  /\ mH e = Some Analysis.mH
  /\ mF e = Some Analysis.mF
  /\ E_vib_au e = option_map Analysis.E_vib_au (nu e).

End Notebook.

(** ** Sample inputs *)

Module Samples.

(** A harmonic well with its minimum at 1.7 atomic units, and the
    energies it gives on the fine grid. *)
Definition well (r : R) : R := (r - 1.7) * (r - 1.7).

Definition E_well : list R := Analysis.E_fine well Analysis.r_fine.


(** A namespace as cell 21 finds it for [Force_Constant = 4.0] and
    [mu = 1.0], with [nu] computed by the harmonic formula. *)
Definition stiff : Notebook.env :=
  Notebook.mk_env None None None None None None None None None None
                  (Some 1) (Some 4) (Some (1 / (2 * PI) * sqrt (4 / 1)))
                  None None.

End Samples.

Module Samples64.

Import PrimFloat.

(** The harmonic well of [Samples] and its energies on the fine grid, in
    binary64. *)
Definition well (r : float) : float := ((r - 1.7) * (r - 1.7))%float.

Definition E_well : list float := Binary64.E_fine well Binary64.r_fine.

End Samples64.

(** ** The spectrum loader (cell 4) *)

Module Spectrum.

Section Frame.

Variable V : Type.

(** The frame [pd.read_csv] returns: [nrows] by [ncols] values, addressed
    by position. *)
Record DataFrame : Type := mk_frame {
  nrows : nat;
  ncols : nat;
  value : nat -> nat -> V
}.

(** [ir_spectrum.iloc[i, j]] for non-negative positions; [None] stands for
    the [IndexError] pandas raises out of bounds. *)
Definition iloc (df : DataFrame) (i j : nat) : option V :=
  if ((i <? nrows df)%nat && (j <? ncols df)%nat)%bool
  then Some (value df i j)
  else None.

(** The names the cell assigns besides [ir_spectrum]. *)
Record state : Type := mk_state {
  wn : list V;
  ab : list V;
  i : option nat
}.

(** [for i in range(0, len(ir_spectrum))]: the two appends of an iteration
    happen in order, so a failing [iloc[i,1]] leaves [wn] one entry longer
    than [ab]. *)
Fixpoint loop (df : DataFrame) (idx : list nat) (s : state)
  : state * Notebook.outcome unit :=
  match idx with
  | [] => (s, Notebook.Returned tt)
  | k :: idx' =>
      match iloc df k 0 with
      | None => (mk_state (wn s) (ab s) (Some k),
                 Notebook.Raised Notebook.IndexError)
      | Some a =>
          match iloc df k 1 with
          | None => (mk_state (wn s ++ [a]) (ab s) (Some k),
                     Notebook.Raised Notebook.IndexError)
          | Some b =>
              loop df idx' (mk_state (wn s ++ [a]) (ab s ++ [b]) (Some k))
          end
      end
  end.

(** Cell 4 once [ir_spectrum] is read: [wn = []], [ab = []], the loop, and
    [plt.plot(wn, ab)], which raises [ValueError] on lists of different
    lengths. *)
Definition cell4 (df : DataFrame) (s : state)
  : state * Notebook.outcome unit :=
  match loop df (seq 0 (nrows df)) (mk_state [] [] (i s)) with
  | (s', Notebook.Returned _) =>
      (s', if (length (wn s') =? length (ab s'))%nat
           then Notebook.Returned tt
           else Notebook.Raised Notebook.ValueError)
  | (s', Notebook.Raised x) => (s', Notebook.Raised x)
  end.

(** Column [j] of a frame, top to bottom. *)
Definition column (df : DataFrame) (j : nat) : list V :=
  map (fun k => value df k j) (seq 0 (nrows df)).

End Frame.

Arguments mk_frame {V}.
Arguments nrows {V}.
Arguments ncols {V}.
Arguments value {V}.
Arguments iloc {V}.
Arguments mk_state {V}.
Arguments wn {V}.
Arguments ab {V}.
Arguments i {V}.
Arguments loop {V}.
Arguments cell4 {V}.
Arguments column {V}.

End Spectrum.

(** ** Python's [str.replace] and the literals of cell 7 *)

Module Loader.

(** [s.replace(old, new)]: the occurrences of [old] are found from left to
    right without overlap, [skip] counting the characters of a match still
    to pass over; the text put in is not searched again. *)
Fixpoint replace_from (old new : string) (skip : nat) (s : string) : string :=
  match s with
  | EmptyString => EmptyString
  | String c s' =>
      match skip with
      | S n => replace_from old new n s'
      | O =>
          if String.prefix old s
          then new ++ replace_from old new (String.length old - 1) s'
          else String c (replace_from old new 0 s')
      end
  end.

(** With an empty [old], Python puts [new] before every character and at
    the end. *)
Fixpoint between (new s : string) : string :=
  match s with
  | EmptyString => EmptyString
  | String c s' => String c (new ++ between new s')
  end.

Definition replace (s old new : string) : string :=
  match old with
  | EmptyString => new ++ between new s
  | _ => replace_from old new 0 s
  end.

(** Whether a character occurs in a string. *)
Fixpoint occurs (a : Ascii.ascii) (s : string) : bool :=
  match s with
  | EmptyString => false
  | String c s' => if Ascii.eqb a c then true else occurs a s'
  end.

(** The literals of cell 7: the bond lengths in Angstrom, the z-matrix
    template (two lines), its marker and the method. *)
Definition bond_lengths : list R :=
  [0.5; 0.6; 0.7; 0.8; 0.9; 1.0; 1.1; 1.2; 1.3; 1.4; 1.5; 1.6; 1.7; 1.8;
   1.9; 2.0; 2.1; 2.2; 2.3].

Definition template : string :=
  ("H" ++ String (Ascii.ascii_of_nat 10) "F 1 **R**")%string.

Definition marker : string := "**R**".

Definition method : string := "SCF/cc-pVDZ".

End Loader.

(** ** The notebook with its lists as objects *)

Module Kernel.

(** All code cells from the imports to the plot of the harmonic potential
    (cells 1 to 26), with Python lists and numpy arrays as objects reached
    through references: a name is bound to a location, [append] changes
    the object at that location, and two names may share one.  The
    analysis cells are those of [Notebook], written again over this
    state. *)
Definition loc : Type := nat.

Section Heap.

Variable A : Type.

(** The object at location [l] is the [l]-th entry. *)
Definition heap : Type := list (list A).

(** A new object takes the next location. *)
Definition alloc (o : list A) (h : heap) : heap := h ++ [o].

Definition deref (h : heap) (l : loc) : list A := nth l h [].

(** [append] on the object at [l], in place. *)
Fixpoint append_at (l : loc) (x : A) (h : heap) {struct h} : heap :=
  match h with
  | [] => []
  | o :: h' =>
      match l with
      | O => (o ++ [x]) :: h'
      | S l' => o :: append_at l' x h'
      end
  end.

End Heap.

Arguments alloc {A}.
Arguments deref {A}.
Arguments append_at {A}.

(** Binding a name. *)
Definition upd {A : Type} (m : string -> A) (name : string) (v : A)
  : string -> A :=
  fun name' => if String.eqb name name' then v else m name'.

(** What the notebook reaches outside itself: the packages that can be
    imported, the spectrum file as pandas reads it, Python's [str] on
    floats, and psi4.  A library call returns or raises.  A molecule is
    the reference [psi4.geometry] returned; what psi4 keeps behind it is
    not the notebook's. *)
Record world : Type := mk_world {
  Value : Type;
  Molecule : Type;
  Failure : Type;
  installed : string -> bool;
  read_csv : string -> Spectrum.DataFrame Value + Failure;
  py_str : R -> string;
  psi4_geometry : string -> Molecule + Failure;
  psi4_energy : string -> Molecule -> R + Failure
}.

Section Cells.

Variable w : world.

(** The kernel's state: the objects, the imported modules, and the
    global names, each kind of value in a map of its own. *)
Record store : Type := mk_store {
  floats : heap R;
  molecule_lists : heap (Molecule w);
  value_lists : heap (Value w);
  modules : string -> bool;
  float_list : string -> option loc;
  molecule_list : string -> option loc;
  value_list : string -> option loc;
  scalar : string -> option R;
  integer : string -> option nat;
  molecule : string -> option (Molecule w);
  text : string -> option string;
  spline : string -> option (R -> R);
  frame : string -> option (Spectrum.DataFrame (Value w))
}.

Definition set_floats (v : heap R) (s : store) : store :=
  mk_store v (molecule_lists s) (value_lists s) (modules s) (float_list s)
           (molecule_list s) (value_list s) (scalar s) (integer s)
           (molecule s) (text s) (spline s) (frame s).

Definition set_molecule_lists (v : heap (Molecule w)) (s : store) : store :=
  mk_store (floats s) v (value_lists s) (modules s) (float_list s)
           (molecule_list s) (value_list s) (scalar s) (integer s)
           (molecule s) (text s) (spline s) (frame s).

Definition set_value_lists (v : heap (Value w)) (s : store) : store :=
  mk_store (floats s) (molecule_lists s) v (modules s) (float_list s)
           (molecule_list s) (value_list s) (scalar s) (integer s)
           (molecule s) (text s) (spline s) (frame s).

Definition set_modules (v : string -> bool) (s : store) : store :=
  mk_store (floats s) (molecule_lists s) (value_lists s) v (float_list s)
           (molecule_list s) (value_list s) (scalar s) (integer s)
           (molecule s) (text s) (spline s) (frame s).

Definition set_float_list (v : string -> option loc) (s : store) : store :=
  mk_store (floats s) (molecule_lists s) (value_lists s) (modules s) v
           (molecule_list s) (value_list s) (scalar s) (integer s)
           (molecule s) (text s) (spline s) (frame s).

Definition set_molecule_list (v : string -> option loc) (s : store) : store :=
  mk_store (floats s) (molecule_lists s) (value_lists s) (modules s)
           (float_list s) v (value_list s) (scalar s) (integer s)
           (molecule s) (text s) (spline s) (frame s).

Definition set_value_list (v : string -> option loc) (s : store) : store :=
  mk_store (floats s) (molecule_lists s) (value_lists s) (modules s)
           (float_list s) (molecule_list s) v (scalar s) (integer s)
           (molecule s) (text s) (spline s) (frame s).

Definition set_scalar (v : string -> option R) (s : store) : store :=
  mk_store (floats s) (molecule_lists s) (value_lists s) (modules s)
           (float_list s) (molecule_list s) (value_list s) v (integer s)
           (molecule s) (text s) (spline s) (frame s).

Definition set_integer (v : string -> option nat) (s : store) : store :=
  mk_store (floats s) (molecule_lists s) (value_lists s) (modules s)
           (float_list s) (molecule_list s) (value_list s) (scalar s) v
           (molecule s) (text s) (spline s) (frame s).

Definition set_molecule (v : string -> option (Molecule w)) (s : store)
  : store :=
  mk_store (floats s) (molecule_lists s) (value_lists s) (modules s)
           (float_list s) (molecule_list s) (value_list s) (scalar s)
           (integer s) v (text s) (spline s) (frame s).

Definition set_text (v : string -> option string) (s : store) : store :=
  mk_store (floats s) (molecule_lists s) (value_lists s) (modules s)
           (float_list s) (molecule_list s) (value_list s) (scalar s)
           (integer s) (molecule s) v (spline s) (frame s).

Definition set_spline (v : string -> option (R -> R)) (s : store) : store :=
  mk_store (floats s) (molecule_lists s) (value_lists s) (modules s)
           (float_list s) (molecule_list s) (value_list s) (scalar s)
           (integer s) (molecule s) (text s) v (frame s).

Definition set_frame (v : string -> option (Spectrum.DataFrame (Value w)))
           (s : store) : store :=
  mk_store (floats s) (molecule_lists s) (value_lists s) (modules s)
           (float_list s) (molecule_list s) (value_list s) (scalar s)
           (integer s) (molecule s) (text s) (spline s) v.

(** A cell returns or raises; either way the state it has reached
    stays. *)
Inductive exn : Type :=
| NameError (name : string)
| ValueError
| IndexError
| ModuleNotFoundError (name : string)
| LibraryError (f : Failure w).

Inductive result (A : Type) : Type :=
| Returned (a : A)
| Raised (x : exn).

Arguments Returned {A} a.
Arguments Raised {A} x.

Definition M (A : Type) : Type := store -> store * result A.

Definition ret {A : Type} (a : A) : M A := fun s => (s, Returned a).

Definition raise {A : Type} (x : exn) : M A := fun s => (s, Raised x).

Definition bind {A B : Type} (m : M A) (k : A -> M B) : M B :=
  fun s =>
    match m s with
    | (s', Returned a) => k a s'
    | (s', Raised x) => (s', Raised x)
    end.

Notation "x <- m ;; k" := (bind m (fun x => k))
  (at level 61, m at next level, right associativity).
Notation "m ;;; k" := (bind m (fun _ => k))
  (at level 61, right associativity).

(** Reading a global name. *)
Definition load {A : Type} (names : store -> string -> option A)
           (name : string) : M A :=
  fun s =>
    match names s name with
    | Some v => (s, Returned v)
    | None => (s, Raised (NameError name))
    end.

Definition lift {A : Type} (x : exn) (o : option A) : M A :=
  match o with
  | Some v => ret v
  | None => raise x
  end.

(** A call into a library. *)
Definition call {A : Type} (r : A + Failure w) : M A :=
  match r with
  | inl a => ret a
  | inr f => raise (LibraryError f)
  end.

(** [import package as name], and the use of a module's name. *)
Definition import_as (package name : string) : M unit :=
  fun s =>
    if installed w package
    then (set_modules (upd (modules s) name true) s, Returned tt)
    else (s, Raised (ModuleNotFoundError package)).

Definition use (name : string) : M unit :=
  fun s =>
    if modules s name then (s, Returned tt)
    else (s, Raised (NameError name)).

(** Assignments of values that are not lists. *)
Definition assign_scalar (name : string) (v : R) : M unit :=
  fun s => (set_scalar (upd (scalar s) name (Some v)) s, Returned tt).

Definition assign_integer (name : string) (v : nat) : M unit :=
  fun s => (set_integer (upd (integer s) name (Some v)) s, Returned tt).

Definition assign_molecule (name : string) (v : Molecule w) : M unit :=
  fun s => (set_molecule (upd (molecule s) name (Some v)) s, Returned tt).

Definition assign_text (name : string) (v : string) : M unit :=
  fun s => (set_text (upd (text s) name (Some v)) s, Returned tt).

Definition assign_frame (name : string)
           (v : Spectrum.DataFrame (Value w)) : M unit :=
  fun s => (set_frame (upd (frame s) name (Some v)) s, Returned tt).

(** [name = <a new list or array>]: the object is created at the next
    location and the name bound to it. *)
Definition new_float_list (name : string) (o : list R) : M unit :=
  fun s =>
    (set_float_list (upd (float_list s) name (Some (length (floats s))))
       (set_floats (alloc o (floats s)) s),
     Returned tt).

Definition new_molecule_list (name : string) (o : list (Molecule w))
  : M unit :=
  fun s =>
    (set_molecule_list
       (upd (molecule_list s) name (Some (length (molecule_lists s))))
       (set_molecule_lists (alloc o (molecule_lists s)) s),
     Returned tt).

Definition new_value_list (name : string) (o : list (Value w)) : M unit :=
  fun s =>
    (set_value_list
       (upd (value_list s) name (Some (length (value_lists s))))
       (set_value_lists (alloc o (value_lists s)) s),
     Returned tt).

(** Reading the object a name is bound to. *)
Definition contents (name : string) : M (list R) :=
  l <- load float_list name ;;
  fun s => (s, Returned (deref (floats s) l)).

Definition molecule_contents (name : string) : M (list (Molecule w)) :=
  l <- load molecule_list name ;;
  fun s => (s, Returned (deref (molecule_lists s) l)).

Definition value_contents (name : string) : M (list (Value w)) :=
  l <- load value_list name ;;
  fun s => (s, Returned (deref (value_lists s) l)).

(** [.append(x)] on the object at [l]. *)
Definition append_float (l : loc) (x : R) : M unit :=
  fun s => (set_floats (append_at l x (floats s)) s, Returned tt).

Definition append_molecule (l : loc) (x : Molecule w) : M unit :=
  fun s =>
    (set_molecule_lists (append_at l x (molecule_lists s)) s, Returned tt).

Definition append_value (l : loc) (x : Value w) : M unit :=
  fun s => (set_value_lists (append_at l x (value_lists s)) s, Returned tt).

(** [plt.plot(x, y, ...)] refuses sequences of different lengths. *)
Definition plt_plot {A B : Type} (x : list A) (y : list B) : M unit :=
  if (length x =? length y)%nat then ret tt else raise ValueError.

(** A [for] loop over the elements a sequence has when the loop starts;
    no loop of the notebook changes the sequence it runs over. *)
Fixpoint for_each {A : Type} (xs : list A) (body : A -> M unit) : M unit :=
  match xs with
  | [] => ret tt
  | x :: xs' => body x ;;; for_each xs' body
  end.

(** Cell 1, the imports. *)
Definition cell1 : M unit :=
  import_as "numpy" "np" ;;;
  import_as "matplotlib" "plt" ;;;
  import_as "scipy" "InterpolatedUnivariateSpline" ;;;
  import_as "pandas" "pd".

(** Cell 4.  In [wn.append(ir_spectrum.iloc[i,0])] the name [wn] is
    looked up before the argument is evaluated. *)
Definition cell4_body (k : nat) : M unit :=
  assign_integer "i" k ;;;
  l <- load value_list "wn" ;;
  df <- load frame "ir_spectrum" ;;
  j <- load integer "i" ;;
  a <- lift IndexError (Spectrum.iloc df j 0) ;;
  append_value l a ;;;
  l <- load value_list "ab" ;;
  df <- load frame "ir_spectrum" ;;
  j <- load integer "i" ;;
  b <- lift IndexError (Spectrum.iloc df j 1) ;;
  append_value l b.

Definition cell4 : M unit :=
  use "pd" ;;;
  df <- call (read_csv w "spectra.CSV") ;;
  assign_frame "ir_spectrum" df ;;;
  new_value_list "wn" [] ;;;
  new_value_list "ab" [] ;;;
  df <- load frame "ir_spectrum" ;;
  for_each (seq 0 (Spectrum.nrows df)) cell4_body ;;;
  use "plt" ;;;
  x <- value_contents "wn" ;;
  y <- value_contents "ab" ;;
  plt_plot x y.

(** Cell 6. *)
Definition cell6 : M unit := import_as "psi4" "psi4".

(** Cell 7, with the list assigned to [r_array] as a parameter: the four
    assignments, then the two loops.  In
    [psi4.geometry(mol_tmpl.replace("**R**", str(r)))] the name [psi4] is
    looked up before the arguments are evaluated. *)
Definition cell7_lists (rs : list R) : M unit :=
  new_float_list "r_array" rs ;;;
  assign_text "mol_tmpl" Loader.template ;;;
  new_molecule_list "molecules" [] ;;;
  new_float_list "RHF_E_array" [].

Definition for_r_body (x : R) : M unit :=
  assign_scalar "r" x ;;;
  use "psi4" ;;;
  tmpl <- load text "mol_tmpl" ;;
  x' <- load scalar "r" ;;
  m <- call (psi4_geometry w (Loader.replace tmpl Loader.marker
                                (py_str w x'))) ;;
  assign_molecule "molecule" m ;;;
  l <- load molecule_list "molecules" ;;
  m' <- load molecule "molecule" ;;
  append_molecule l m'.

Definition for_mol_body (m : Molecule w) : M unit :=
  assign_molecule "mol" m ;;;
  use "psi4" ;;;
  m' <- load molecule "mol" ;;
  v <- call (psi4_energy w Loader.method m') ;;
  assign_scalar "energy" v ;;;
  l <- load float_list "RHF_E_array" ;;
  v' <- load scalar "energy" ;;
  append_float l v'.

Definition cell7_loops : M unit :=
  rs <- contents "r_array" ;;
  for_each rs for_r_body ;;;
  ms <- molecule_contents "molecules" ;;
  for_each ms for_mol_body.

Definition cell7_on (rs : list R) : M unit :=
  cell7_lists rs ;;; cell7_loops.

Definition cell7 : M unit := cell7_on Loader.bond_lengths.

(** Cell 9; [plt.legend()] and [plt.show()] follow a successful use of
    [plt] and draw only. *)
Definition cell9 : M unit :=
  use "plt" ;;;
  x <- contents "r_array" ;;
  y <- contents "RHF_E_array" ;;
  plt_plot x y.

(** Cell 11: two string literals. *)
Definition cell11 : M unit := ret tt.

(** Cell 13: [np.linspace] and the call of the spline each return a new
    array. *)
Definition cell13 : M unit :=
  use "np" ;;;
  new_float_list "r_fine" Analysis.r_fine ;;;
  f <- load spline "E_spline" ;;
  x <- contents "r_fine" ;;
  new_float_list "E_fine" (Analysis.E_fine f x) ;;;
  use "plt" ;;;
  x <- contents "r_fine" ;;
  y <- contents "E_fine" ;;
  plt_plot x y ;;;
  x <- contents "r_array_au" ;;
  y <- contents "E_array" ;;
  plt_plot x y.

Definition cell16 : M unit :=
  use "plt" ;;;
  x <- contents "r_fine" ;;
  y <- contents "Force_fine" ;;
  plt_plot x y.

Definition cell18 : M unit :=
  use "np" ;;;
  a <- contents "E_fine" ;;
  i <- lift ValueError (Analysis.Req_idx a) ;;
  assign_integer "Req_idx" i ;;;
  x <- contents "r_fine" ;;
  i <- load integer "Req_idx" ;;
  r <- lift IndexError (Analysis.Req x i) ;;
  assign_scalar "Req" r ;;;
  _ <- load scalar "Req" ;;
  _ <- load scalar "Req" ;;
  assign_scalar "mH" Analysis.mH ;;;
  assign_scalar "mF" Analysis.mF ;;;
  _ <- load scalar "mu" ;;
  ret tt.

Definition cell21 : M unit :=
  _ <- load scalar "Force_Constant" ;;
  _ <- load scalar "nu" ;;
  use "np" ;;;
  v <- load scalar "nu" ;;
  assign_scalar "E_vib_au" (Analysis.E_vib_au v) ;;;
  _ <- load scalar "E_vib_au" ;;
  ret tt.

(** Cell 24: a string literal. *)
Definition cell24 : M unit := ret tt.

Definition cell26 : M unit :=
  use "plt" ;;;
  x <- contents "r_fine" ;;
  y <- contents "Harm_Pot" ;;
  plt_plot x y ;;;
  x <- contents "r_fine" ;;
  y <- contents "E_fine" ;;
  plt_plot x y.

(** The code cells of the pipeline, numbered by their position in the
    notebook. *)
Inductive cell : Type :=
| Cell1 | Cell4 | Cell6 | Cell7 | Cell9 | Cell11 | Cell13 | Cell16 | Cell18
| Cell21 | Cell24 | Cell26.

Definition code (c : cell) : M unit :=
  match c with
  | Cell1 => cell1
  | Cell4 => cell4
  | Cell6 => cell6
  | Cell7 => cell7
  | Cell9 => cell9
  | Cell11 => cell11
  | Cell13 => cell13
  | Cell16 => cell16
  | Cell18 => cell18
  | Cell21 => cell21
  | Cell24 => cell24
  | Cell26 => cell26
  end.

Definition same_cell (c d : cell) : {c = d} + {c <> d}.
Proof.
  decide equality.
Defined.

(** The state after a cell has run, whether it returned or raised; cells
    run one after another, in any order and any number of times. *)
Definition exec (c : cell) (s : store) : store := fst (code c s).

Definition exec_all (cs : list cell) (s : store) : store :=
  fold_left (fun s' c => exec c s') cs s.

(** A kernel just started: nothing imported, nothing bound, no object. *)
Definition fresh : store :=
  mk_store [] [] [] (fun _ => false) (fun _ => None) (fun _ => None)
           (fun _ => None) (fun _ => None) (fun _ => None) (fun _ => None)
           (fun _ => None) (fun _ => None) (fun _ => None).

(** What a name bound to a list holds. *)
Definition read_floats (s : store) (name : string) : option (list R) :=
  option_map (deref (floats s)) (float_list s name).

Definition read_molecules (s : store) (name : string)
  : option (list (Molecule w)) :=
  option_map (deref (molecule_lists s)) (molecule_list s name).

Definition read_values (s : store) (name : string)
  : option (list (Value w)) :=
  option_map (deref (value_lists s)) (value_list s name).

(** The names the notebook leaves to the student (the Sample Set in atomic
    units, the Interpolant, the values derived from it) are bound as they
    were. *)
Definition inputs_kept (s0 s : store) : Prop :=
  float_list s "r_array_au" = float_list s0 "r_array_au"
  /\ float_list s "E_array" = float_list s0 "E_array"
  /\ spline s "E_spline" = spline s0 "E_spline"
  /\ float_list s "Force_fine" = float_list s0 "Force_fine"
  /\ float_list s "Harm_Pot" = float_list s0 "Harm_Pot"
  /\ scalar s "mu" = scalar s0 "mu"
  /\ scalar s "Force_Constant" = scalar s0 "Force_Constant"
  /\ scalar s "nu" = scalar s0 "nu".

Definition masses_kept (s0 s : store) : Prop :=
  scalar s "mH" = scalar s0 "mH" /\ scalar s "mF" = scalar s0 "mF".

(** The bindings of modules, lists, texts, splines and frames are the
    same in [s'] as in [s]. *)
Definition same_bindings (s s' : store) : Prop :=
  modules s' = modules s
  /\ float_list s' = float_list s
  /\ molecule_list s' = molecule_list s
  /\ value_list s' = value_list s
  /\ text s' = text s
  /\ spline s' = spline s
  /\ frame s' = frame s.

(** The z-matrix cell 7 hands to [psi4.geometry] for the bond length [x],
    and the two calls of its loops. *)
Definition zmatrix (x : R) : string :=
  Loader.replace Loader.template Loader.marker (py_str w x).

Definition geometry_of (x : R) : Molecule w + Failure w :=
  psi4_geometry w (zmatrix x).

Definition energy_of (m : Molecule w) : R + Failure w :=
  psi4_energy w Loader.method m.


(** The objects of [h0] are still there, unchanged, in [h]. *)
Definition kept {A : Type} (h0 h : heap A) : Prop :=
  firstn (length h0) h = h0.


End Cells.

End Kernel.

(** ** What cell 18 prints *)

Module Report.

(** [Req/1.89], the equilibrium bond length in Angstrom. *)
Definition Req_angstrom (Req : R) : R := Req / 1.89.

End Report.

Module Report64.

Import PrimFloat.

Definition Req_angstrom (Req : float) : float := (Req / 1.89)%float.

End Report64.

(** ** Further sample inputs *)

Module Examples.

(** A spectrum of three rows and two columns, and one with a single
    column. *)
Definition spectrum : Spectrum.DataFrame nat :=
  Spectrum.mk_frame 3 2 (fun i j => (10 * i + j)%nat).

Definition one_column : Spectrum.DataFrame nat :=
  Spectrum.mk_frame 2 1 (fun i j => (10 * i + j)%nat).

Definition nothing_bound : Spectrum.state nat := Spectrum.mk_state [] [] None.

(** An affine change of the energy scale. *)
Definition rescale (E : R) : R := 2 * E + 100.

(** A namespace holding a grid of three points with their energies, and
    one holding only a spline. *)
Definition three_points : Notebook.env :=
  Notebook.mk_env None None None (Some [1.0; 1.5; 2.0]) (Some [3; 1; 2])
                  None None None None None None None None None None.


(** Stand-ins for what lies outside the notebook: every package is
    installed, the spectrum file holds [spectrum], every bond length
    prints as ["1.0"], a molecule is its z-matrix and its energy the length
    of that text. *)
Definition world : Kernel.world :=
  Kernel.mk_world nat string string
    (fun _ => true)
    (fun _ => inl spectrum)
    (fun _ => "1.0"%string)
    (fun zmat => inl zmat)
    (fun _ zmat => inl (INR (String.length zmat))).

(** The same, with a psi4 whose energy calculation never converges. *)
Definition world_without_energies : Kernel.world :=
  Kernel.mk_world nat string string
    (fun _ => true)
    (fun _ => inl spectrum)
    (fun _ => "1.0"%string)
    (fun zmat => inl zmat)
    (fun _ _ => inr "not converged"%string).

(** A kernel in which only [import psi4] has run. *)
Definition psi4_imported : Kernel.store world :=
  Kernel.exec world Kernel.Cell6 (Kernel.fresh world).


End Examples.

(** ** Shapes of float energy lists *)

Module Shape64.

Import PrimFloat.

(** The energies fall strictly up to index [k] and rise strictly from
    there on, as floats compare. *)
Definition single_well (k : nat) (E : list float) : bool :=
  (forallb (fun j => (nth (S j) E 0 <? nth j E 0)%float) (seq 0 k)
   && forallb (fun j => (nth j E 0 <? nth (S j) E 0)%float)
              (seq k (length E - S k)))%bool.


End Shape64.

Module Examples64.

Import PrimFloat.

(** A well with its minimum at 1.7 whose depth is below the resolution of
    binary64 at -100, and the energies it gives on the fine grid. *)
Definition shallow_well (r : float) : float :=
  (-100 + 1e-17 * ((r - 1.7) * (r - 1.7)))%float.

Definition E_shallow : list float :=
  Binary64.E_fine shallow_well Binary64.r_fine.

(** The affine change of the energy scale of [Examples.rescale], in
    binary64. *)
Definition rescale (E : float) : float := (2 * E + 100)%float.

End Examples64.

(** ** Proof machinery for cells *)

Import Notebook.

Arguments Analysis.r_fine : simpl never.
Arguments Analysis.E_fine : simpl never.
Arguments Analysis.Req_idx : simpl never.
Arguments Analysis.Req : simpl never.
Arguments Analysis.E_vib_au : simpl never.
Arguments Analysis.mH : simpl never.
Arguments Analysis.mF : simpl never.

(** Unfold a cell down to the case analyses it makes. *)
Ltac unfold_cell :=
  unfold exec, code, cell11, cell13, cell16, cell18, cell21, cell24, cell26,
    bind, load, store, lift, plt_plot, print, ret, raise,
    set_r_fine, set_E_fine, set_Req_idx, set_Req, set_mH, set_mF,
    set_E_vib_au;
  cbn.

(** Split on whatever the cell inspects next, innermost test first. *)
Ltac split_cases :=
  repeat match goal with
         | |- context [match ?x with _ => _ end] =>
             lazymatch x with
             | context [match _ with _ => _ end] => fail
             | _ => destruct x eqn:?; cbn in *
             end
         end.

Ltac run_cell := unfold_cell; split_cases.

(** Split on every comparison of integers or positives in the goal. *)
Ltac split_compare :=
  repeat match goal with
         | |- context [(?a ?= ?b)%Z] => destruct (Z.compare_spec a b)
         | |- context [(?a ?= ?b)%positive] => destruct (Pos.compare_spec a b)
         end.

(** ** Facts about [linspace] *)

Lemma linspace_length (start stop : R) (num : nat) :
  length (Numpy.linspace start stop num) = num.
Proof.
  unfold Numpy.linspace. now rewrite length_map, length_seq.
Qed.

Lemma INR_pred_pos (num : nat) : (1 < num)%nat -> 0 < INR (num - 1).
Proof.
  intros H. apply lt_0_INR. lia.
Qed.

(** Every sample, the overwritten last one included, sits at
    [start + i * step]. *)
Lemma linspace_nth_error (start stop : R) (num i : nat) :
  (1 < num)%nat -> (i < num)%nat ->
  nth_error (Numpy.linspace start stop num) i
  = Some (start + INR i * ((stop - start) / INR (num - 1))).
Proof.
  intros Hnum Hi. unfold Numpy.linspace.
  rewrite nth_error_map, nth_error_seq.
  destruct (Nat.ltb_spec i num) as [_ | Hc]; [| lia].
  simpl. f_equal.
  destruct (Nat.ltb_spec 1 num) as [_ | Hc]; [| lia]. simpl.
  destruct (Nat.eqb_spec i (num - 1)) as [-> | _].
  - pose proof (INR_pred_pos num Hnum). field. lra.
  - ring.
Qed.

Lemma linspace_nth (start stop : R) (num i : nat) :
  (1 < num)%nat -> (i < num)%nat ->
  nth i (Numpy.linspace start stop num) 0
  = start + INR i * ((stop - start) / INR (num - 1)).
Proof.
  intros Hnum Hi. apply nth_error_nth.
  now apply linspace_nth_error.
Qed.

Lemma linspace_bounds (start stop : R) (num i : nat) :
  (1 < num)%nat -> (i < num)%nat -> start <= stop ->
  start <= nth i (Numpy.linspace start stop num) 0 <= stop.
Proof.
  intros Hnum Hi Hle. rewrite linspace_nth by assumption.
  pose proof (INR_pred_pos num Hnum) as Hd.
  assert (Hi0 : 0 <= INR i) by apply pos_INR.
  assert (Hi1 : INR i <= INR (num - 1)) by (apply le_INR; lia).
  assert (Hq : 0 <= INR i / INR (num - 1) <= 1).
  { split.
    - apply Rmult_le_pos; [lra | left; now apply Rinv_0_lt_compat].
    - apply (Rmult_le_reg_r (INR (num - 1))); [exact Hd |].
      replace (INR i / INR (num - 1) * INR (num - 1)) with (INR i)
        by (field; lra).
      lra. }
  replace (INR i * ((stop - start) / INR (num - 1)))
    with ((INR i / INR (num - 1)) * (stop - start)) by (field; lra).
  nra.
Qed.

Lemma linspace_increasing (start stop : R) (num i j : nat) :
  (j < num)%nat -> (i < j)%nat -> start < stop ->
  nth i (Numpy.linspace start stop num) 0
  < nth j (Numpy.linspace start stop num) 0.
Proof.
  intros Hj Hij Hlt.
  assert (Hnum : (1 < num)%nat) by lia.
  rewrite !linspace_nth by lia.
  pose proof (INR_pred_pos num Hnum) as Hd.
  assert (Hs : 0 < (stop - start) / INR (num - 1)).
  { apply Rmult_lt_0_compat; [lra | now apply Rinv_0_lt_compat]. }
  assert (INR i < INR j) by (apply lt_INR; exact Hij).
  nra.
Qed.

(** ** Facts about [argmin] *)

(** The scan keeps this invariant over the prefix [pre] already read:
    [mp] is the value at [min_ind], nothing in [pre] is below it, and
    everything before [min_ind] is strictly above it. *)
Lemma argmin_from_spec (a : list R) :
  forall (pre : list R) (mp : R) (min_ind : nat),
    (min_ind < length pre)%nat ->
    nth min_ind pre 0 = mp ->
    (forall j, (j < length pre)%nat -> mp <= nth j pre 0) ->
    (forall j, (j < min_ind)%nat -> mp < nth j pre 0) ->
    let k := Numpy.argmin_from a (length pre) mp min_ind in
    (k < length (pre ++ a))%nat
    /\ (forall j, (j < length (pre ++ a))%nat ->
                  nth k (pre ++ a) 0 <= nth j (pre ++ a) 0)
    /\ (forall j, (j < k)%nat -> nth k (pre ++ a) 0 < nth j (pre ++ a) 0).
Proof.
  induction a as [| x a IH]; intros pre mp min_ind Hlt Hmp Hall Hbefore; simpl.
  - rewrite app_nil_r. subst mp. repeat split; auto.
  - assert (Hlen : length (pre ++ [x]) = S (length pre))
      by (rewrite length_app; simpl; lia).
    replace (pre ++ x :: a) with ((pre ++ [x]) ++ a)
      by (now rewrite <- app_assoc).
    destruct (Rlt_dec x mp) as [Hx | Hx].
    + rewrite <- Hlen. apply IH.
      * lia.
      * rewrite app_nth2, Nat.sub_diag by lia. reflexivity.
      * intros j Hj. rewrite Hlen in Hj.
        destruct (Nat.eq_dec j (length pre)) as [-> | Hne].
        -- rewrite app_nth2, Nat.sub_diag by lia. simpl. lra.
        -- rewrite app_nth1 by lia. specialize (Hall j ltac:(lia)). lra.
      * intros j Hj.
        rewrite app_nth1 by lia. specialize (Hall j ltac:(lia)). lra.
    + rewrite <- Hlen. apply IH.
      * lia.
      * rewrite app_nth1 by lia. exact Hmp.
      * intros j Hj. rewrite Hlen in Hj.
        destruct (Nat.eq_dec j (length pre)) as [-> | Hne].
        -- rewrite app_nth2, Nat.sub_diag by lia. simpl. lra.
        -- rewrite app_nth1 by lia. apply Hall. lia.
      * intros j Hj. rewrite app_nth1 by lia. now apply Hbefore.
Qed.

Lemma argmin_spec (a : list R) (k : nat) :
  Numpy.argmin a = Some k ->
  (k < length a)%nat
  /\ (forall j, (j < length a)%nat -> nth k a 0 <= nth j a 0)
  /\ (forall j, (j < k)%nat -> nth k a 0 < nth j a 0).
Proof.
  destruct a as [| x a]; simpl; [discriminate |].
  intros [= <-].
  apply (argmin_from_spec a [x] x 0%nat); simpl; auto; try lia.
  - intros j Hj. assert (j = 0%nat) as -> by lia. simpl. lra.
Qed.

Lemma argmin_defined (a : list R) :
  a <> [] -> exists k, Numpy.argmin a = Some k.
Proof.
  destruct a as [| x a]; [congruence |]. intros _. simpl. eauto.
Qed.

(** ** The fine grid *)

Lemma INR_199 : INR (200 - 1) = 199.
Proof.
  rewrite INR_IZR_INZ. reflexivity.
Qed.

Lemma r_fine_length : length Analysis.r_fine = 200%nat.
Proof.
  apply linspace_length.
Qed.

Lemma r_fine_nth (i : nat) :
  (i < 200)%nat ->
  nth i Analysis.r_fine 0
  = 0.5 * 1.89 + INR i * ((2.3 * 1.89 - 0.5 * 1.89) / 199).
Proof.
  intros Hi. unfold Analysis.r_fine.
  rewrite linspace_nth by lia. now rewrite INR_199.
Qed.

Lemma r_fine_increasing (i j : nat) :
  (j < 200)%nat -> (i < j)%nat ->
  nth i Analysis.r_fine 0 < nth j Analysis.r_fine 0.
Proof.
  intros Hj Hij. apply linspace_increasing; [exact Hj | exact Hij | lra].
Qed.

Lemma r_fine_bounds (i : nat) :
  (i < 200)%nat ->
  0.5 * 1.89 <= nth i Analysis.r_fine 0 <= 2.3 * 1.89.
Proof.
  intros Hi. apply linspace_bounds; [lia | exact Hi | lra].
Qed.

Lemma r_fine_In_bounds (x : R) :
  In x Analysis.r_fine -> 0.5 * 1.89 <= x <= 2.3 * 1.89.
Proof.
  intros Hx. destruct (In_nth _ _ 0 Hx) as [i [Hi <-]].
  rewrite r_fine_length in Hi. now apply r_fine_bounds.
Qed.

(** ** The Extremum Locator on any grid *)

Lemma locate_spec (r E : list R) :
  length E = length r -> E <> [] ->
  exists i,
    Analysis.Req_idx E = Some i
    /\ (i < length r)%nat
    /\ Analysis.Req r i = Some (nth i r 0)
    /\ Analysis.locate r E = Some (nth i r 0)
    /\ (forall j, (j < length E)%nat -> nth i E 0 <= nth j E 0)
    /\ (forall j, (j < i)%nat -> nth i E 0 < nth j E 0).
Proof.
  intros Hlen Hne.
  destruct (argmin_defined E Hne) as [i Hi].
  destruct (argmin_spec E i Hi) as [Hlt [Hmin Hfirst]].
  assert (Hreq : Analysis.Req r i = Some (nth i r 0)).
  { unfold Analysis.Req. apply nth_error_nth'. lia. }
  exists i. unfold Analysis.locate, Analysis.Req_idx.
  rewrite Hi. repeat split; auto. lia.
Qed.

(** The Extremum Locator on the fine grid, in exact arithmetic. *)
Lemma locate_first_minimum (E_fine : list R) :
  length E_fine = length Analysis.r_fine ->
  exists (i : nat) (Req : R),
    Analysis.Req_idx E_fine = Some i
    /\ Analysis.Req Analysis.r_fine i = Some Req
    /\ nth_error Analysis.r_fine i = Some Req
    /\ Analysis.locate Analysis.r_fine E_fine = Some Req
    /\ (forall j, (j < length E_fine)%nat -> nth i E_fine 0 <= nth j E_fine 0)
    /\ (forall j, (j < length E_fine)%nat ->
                  nth j E_fine 0 = nth i E_fine 0 ->
                  (i <= j)%nat /\ Req <= nth j Analysis.r_fine 0).
Proof.
  intros Hlen.
  assert (Hne : E_fine <> []).
  { intros ->. rewrite r_fine_length in Hlen. discriminate. }
  destruct (locate_spec Analysis.r_fine E_fine Hlen Hne)
    as [i [Hidx [Hlt [Hreq [Hloc [Hmin Hfirst]]]]]].
  exists i, (nth i Analysis.r_fine 0).
  repeat split; auto.
  - destruct (le_lt_dec i j) as [Hle | Hgt]; [exact Hle |].
    specialize (Hfirst j Hgt). lra.
  - destruct (le_lt_dec i j) as [Hle | Hgt].
    + destruct (Nat.eq_dec i j) as [-> | Hneq]; [lra |].
      left. apply r_fine_increasing; [| lia].
      rewrite <- r_fine_length, <- Hlen. exact H.
    + specialize (Hfirst j Hgt). lra.
Qed.


(** ** Running cells *)

(** The names no cell assigns keep their bindings. *)
Lemma exec_inputs (c : cell) (e : env) :
  r_array_au (exec c e) = r_array_au e
  /\ E_array (exec c e) = E_array e
  /\ E_spline (exec c e) = E_spline e
  /\ Force_fine (exec c e) = Force_fine e
  /\ mu (exec c e) = mu e
  /\ Force_Constant (exec c e) = Force_Constant e
  /\ nu (exec c e) = nu e
  /\ Harm_Pot (exec c e) = Harm_Pot e.
Proof.
  destruct e, c; run_cell; repeat split; reflexivity.
Qed.

(** The two masses, once set by cell 18, are what every later run of any
    cell finds. *)
Lemma exec_masses (c : cell) (e : env) :
  (mH e = Some Analysis.mH -> mH (exec c e) = Some Analysis.mH)
  /\ (mF e = Some Analysis.mF -> mF (exec c e) = Some Analysis.mF).
Proof.
  destruct e, c; run_cell; split; intros H; auto.
Qed.

(** The only exceptions a cell can raise. *)
Lemma raised_exceptions (c : cell) (e : env) (x : exn) :
  snd (code c e) = Raised x ->
  (exists name, x = NameError name) \/ x = ValueError \/ x = IndexError.
Proof.
  destruct e, c; run_cell; intros H; inversion H; eauto.
Qed.

(** In a namespace whose results are built, a cell changes nothing. *)
Lemma exec_built (f : R -> R) (c : cell) (e : env) :
  built f e -> exec c e = e.
Proof.
  unfold built. destruct e. cbn.
  intros (HS & Hr & HE & Hi & HR & HmH & HmF & HV). subst.
  destruct c; run_cell; unfold Analysis.locate;
    repeat match goal with
           | H : Analysis.Req_idx _ = _ |- _ => rewrite H
           | H : Analysis.Req _ _ = _ |- _ => rewrite H
           end;
    reflexivity.
Qed.

(** Cells 13 and 18 build their results from the spline alone. *)
Lemma pipeline_builds (f : R -> R) (e : env) :
  E_spline e = Some f ->
  E_vib_au e = option_map Analysis.E_vib_au (nu e) ->
  built f (exec Cell18 (exec Cell13 e)).
Proof.
  unfold built. destruct e. cbn. intros -> ->.
  assert (Hlen : length (Analysis.E_fine f Analysis.r_fine)
                 = length Analysis.r_fine)
    by (unfold Analysis.E_fine; apply length_map).
  assert (Hne : Analysis.E_fine f Analysis.r_fine <> []).
  { intros Heq. rewrite Heq, r_fine_length in Hlen. discriminate. }
  destruct (locate_spec _ _ Hlen Hne) as [i [Hidx [_ [Hreq [Hloc _]]]]].
  rewrite Hloc.
  unfold_cell. rewrite Nat.eqb_refl.
  destruct r_array_au0, E_array0; cbn;
    try destruct (length l =? length l0)%nat; cbn;
    rewrite Hidx; cbn; rewrite Hreq; cbn;
    destruct mu0; cbn; repeat split; auto.
Qed.

Lemma exec_all_inputs (cs : list cell) :
  forall e : env,
    r_array_au (exec_all cs e) = r_array_au e
    /\ E_array (exec_all cs e) = E_array e
    /\ E_spline (exec_all cs e) = E_spline e
    /\ Force_fine (exec_all cs e) = Force_fine e
    /\ mu (exec_all cs e) = mu e
    /\ Force_Constant (exec_all cs e) = Force_Constant e
    /\ nu (exec_all cs e) = nu e
    /\ Harm_Pot (exec_all cs e) = Harm_Pot e.
Proof.
  induction cs as [| c cs IH]; intros e; simpl.
  - repeat split; reflexivity.
  - destruct (IH (exec c e)) as (H1 & H2 & H3 & H4 & H5 & H6 & H7 & H8).
    destruct (exec_inputs c e) as (G1 & G2 & G3 & G4 & G5 & G6 & G7 & G8).
    repeat split; congruence.
Qed.

Lemma exec_all_masses (cs : list cell) :
  forall e : env,
    (mH e = Some Analysis.mH -> mH (exec_all cs e) = Some Analysis.mH)
    /\ (mF e = Some Analysis.mF -> mF (exec_all cs e) = Some Analysis.mF).
Proof.
  induction cs as [| c cs IH]; intros e; simpl.
  - split; auto.
  - destruct (IH (exec c e)) as [H1 H2].
    destruct (exec_masses c e) as [G1 G2].
    split; auto.
Qed.

Lemma exec_all_built (f : R -> R) (cs : list cell) :
  forall e : env, built f e -> exec_all cs e = e.
Proof.
  induction cs as [| c cs IH]; intros e Hb; simpl.
  - reflexivity.
  - rewrite (exec_built f c e Hb). now apply IH.
Qed.

(** The notebook as it stands, each cell run in turn in a fresh kernel:
    cell 13 binds the grid and then fails on [E_spline], and every later
    cell fails on a name nobody has bound, so the grid is all there is. *)
Lemma fresh_kernel_run :
  exec_all notebook fresh = set_r_fine Analysis.r_fine fresh
  /\ outcomes notebook fresh
     = [Returned tt; Raised (NameError "E_spline");
        Raised (NameError "Force_fine"); Raised (NameError "E_fine");
        Raised (NameError "Force_Constant"); Returned tt;
        Raised (NameError "Harm_Pot")].
Proof.
  split; reflexivity.
Qed.

(** ** The Physical-Quantity Extractor's cell *)




(** ** The vibrational energy *)

(** C10, amended.  Cell 21 reports [E_vib_au = 2 * pi * nu].  So in exact
    arithmetic, for a force constant k > 0 and a reduced mass mu > 0,
    when [nu] holds (1 / (2 pi)) * sqrt (k / mu), the vibrational energy
    it reports is sqrt (k / mu). *)
Theorem E_vib_au_is_sqrt_k_over_mu (e : env) (k m : R) :
  0 < k -> 0 < m ->
  Force_Constant e = Some k ->
  mu e = Some m ->
  nu e = Some (1 / (2 * PI) * sqrt (k / m)) ->
  (forall v, Analysis.E_vib_au v = 2 * PI * v)
  /\ snd (code Cell21 e) = Returned tt
  /\ E_vib_au (exec Cell21 e) = Some (sqrt (k / m)).
Proof.
  intros Hk Hm HF Hmu Hnu.
  split; [reflexivity |].
  destruct e. cbn in HF, Hmu, Hnu. subst. unfold_cell.
  split; [reflexivity |].
  f_equal. unfold Analysis.E_vib_au. field. apply PI_neq0.
Qed.

Lemma E_vib_au_is_sqrt_k_over_mu_witness :
  (forall v, Analysis.E_vib_au v = 2 * PI * v)
  /\ snd (code Cell21 Samples.stiff) = Returned tt
  /\ E_vib_au (exec Cell21 Samples.stiff) = Some (sqrt (4 / 1)).
Proof.
  apply (E_vib_au_is_sqrt_k_over_mu Samples.stiff 4 1).
  - lra.
  - lra.
  - reflexivity.
  - reflexivity.
  - reflexivity.
Defined.

(** ** The grid and the minimum in exact arithmetic *)

Lemma r_fine_nth_error (i : nat) :
  (i < 200)%nat ->
  nth_error Analysis.r_fine i
  = Some (0.5 * 1.89 + INR i * ((2.3 * 1.89 - 0.5 * 1.89) / 199)).
Proof.
  intros Hi. rewrite <- r_fine_nth by exact Hi.
  apply nth_error_nth'. now rewrite r_fine_length.
Qed.

Lemma locate_in_grid (E_spline : R -> R) :
  exists Req,
    Analysis.locate Analysis.r_fine
      (Analysis.E_fine E_spline Analysis.r_fine) = Some Req
    /\ In Req Analysis.r_fine
    /\ 0.5 * 1.89 <= Req <= 2.3 * 1.89.
Proof.
  assert (Hlen : length (Analysis.E_fine E_spline Analysis.r_fine)
                 = length Analysis.r_fine)
    by (unfold Analysis.E_fine; apply length_map).
  assert (Hne : Analysis.E_fine E_spline Analysis.r_fine <> []).
  { intros Heq. rewrite Heq, r_fine_length in Hlen. discriminate. }
  destruct (locate_spec _ _ Hlen Hne) as [i [_ [Hlt [_ [Hloc _]]]]].
  exists (nth i Analysis.r_fine 0).
  assert (Hin : In (nth i Analysis.r_fine 0) Analysis.r_fine)
    by (apply nth_In; exact Hlt).
  split; [exact Hloc |].
  split; [exact Hin |].
  now apply r_fine_In_bounds.
Qed.

(** ** Cells 13 and 18, case by case *)

Lemma E_fine_length (f : R -> R) :
  length (Analysis.E_fine f Analysis.r_fine) = 200%nat.
Proof.
  unfold Analysis.E_fine. rewrite length_map. apply r_fine_length.
Qed.

Lemma E_fine_nth (f : R -> R) (i : nat) :
  (i < 200)%nat ->
  nth i (Analysis.E_fine f Analysis.r_fine) 0 = f (nth i Analysis.r_fine 0).
Proof.
  intros Hi. unfold Analysis.E_fine.
  rewrite (nth_indep _ 0 (f 0)) by (rewrite length_map, r_fine_length; lia).
  apply map_nth.
Qed.





Lemma cell21_outcome (e : env) :
  snd (code Cell21 e)
  = match Force_Constant e, nu e with
    | None, _ => Raised (NameError "Force_Constant")
    | Some _, None => Raised (NameError "nu")
    | Some _, Some _ => Returned tt
    end.
Proof.
  destruct e as [xs ys f rf ef ff ri rq h1 h2 m k v ev hp].
  run_cell; reflexivity.
Qed.



Lemma exec_plot_cells (c : cell) (e : env) :
  c = Cell11 \/ c = Cell16 \/ c = Cell24 \/ c = Cell26 -> exec c e = e.
Proof.
  destruct e as [xs ys f rf ef ff ri rq h1 h2 m k v ev hp].
  intros [-> | [-> | [-> | ->]]]; run_cell; reflexivity.
Qed.





(** X3.  When cell 18 cannot locate the minimum ([E_fine] unbound or
    empty, [r_fine] unbound, or the index found beyond the end of
    [r_fine]) it raises before the masses are assigned: [mH], [mF] and
    [Req] keep the bindings they had, and the exception is not the
    [NameError] for [mu]. *)
Theorem cell18_failure_keeps_masses (e : env) :
  (E_fine e = None
   \/ E_fine e = Some []
   \/ r_fine e = None
   \/ (exists a x i, E_fine e = Some a /\ r_fine e = Some x
                     /\ Numpy.argmin a = Some i /\ (length x <= i)%nat)) ->
  mH (exec Cell18 e) = mH e
  /\ mF (exec Cell18 e) = mF e
  /\ Req (exec Cell18 e) = Req e
  /\ exists x, snd (code Cell18 e) = Raised x /\ x <> NameError "mu".
Proof.
  destruct e as [xs ys f rf ef ff ri rq h1 h2 m k v ev hp]. cbn.
  intros [-> | [-> | [-> | (a & x & i & -> & -> & Hi & Hlen)]]]; unfold_cell.
  - repeat split; eexists; split; [reflexivity | discriminate].
  - repeat split; eexists; split; [reflexivity | discriminate].
  - destruct ef as [a |]; cbn.
    + unfold Analysis.Req_idx. destruct (Numpy.argmin a); cbn;
        repeat split; eexists; split; try reflexivity; discriminate.
    + repeat split; eexists; split; [reflexivity | discriminate].
  - unfold Analysis.Req_idx, Analysis.Req. rewrite Hi. cbn.
    apply nth_error_None in Hlen. rewrite Hlen. cbn.
    repeat split; eexists; split; [reflexivity | discriminate].
Qed.

Lemma cell18_failure_keeps_masses_witness :
  mH (exec Cell18 fresh) = None
  /\ mF (exec Cell18 fresh) = None
  /\ Req (exec Cell18 fresh) = None
  /\ exists x, snd (code Cell18 fresh) = Raised x /\ x <> NameError "mu".
Proof.
  apply (cell18_failure_keeps_masses fresh). left. reflexivity.
Defined.



(** X5.  Every cell other than 13 and 18 is all-or-nothing: if it raises,
    the namespace is exactly as it was.  (Cells 13 and 18 are not: cell 13
    has rebound [r_fine], and cell 18 the results and masses, before their
    later lines fail.) *)
Theorem raising_cells_change_nothing (c : cell) (e : env) (x : exn) :
  c <> Cell13 -> c <> Cell18 ->
  snd (code c e) = Raised x -> exec c e = e.
Proof.
  intros H13 H18.
  destruct e as [xs ys f rf ef ff ri rq h1 h2 m k v ev hp].
  destruct c; try congruence; run_cell; intros H; try discriminate;
    reflexivity.
Qed.

Lemma raising_cells_change_nothing_witness :
  exec Cell21 Examples.three_points = Examples.three_points.
Proof.
  apply (raising_cells_change_nothing Cell21 Examples.three_points
           (NameError "Force_Constant")).
  - discriminate.
  - discriminate.
  - reflexivity.
Defined.


(** ** Running cells again, and out of order *)

(** What each assigning cell does to the namespace. *)
Lemma exec13_eq (e : env) :
  exec Cell13 e
  = match E_spline e with
    | Some f =>
        set_E_fine (Analysis.E_fine f Analysis.r_fine)
          (set_r_fine Analysis.r_fine e)
    | None => set_r_fine Analysis.r_fine e
    end.
Proof.
  destruct e as [xs ys f rf ef ff ri rq h1 h2 m k v ev hp].
  unfold_cell. destruct f as [f |]; cbn; [| reflexivity].
  rewrite E_fine_length, r_fine_length. cbn.
  destruct xs as [xs |]; cbn; [| reflexivity].
  destruct ys as [ys |]; cbn; [| reflexivity].
  destruct (length xs =? length ys)%nat; reflexivity.
Qed.

Lemma exec18_eq (e : env) :
  exec Cell18 e
  = match E_fine e with
    | None => e
    | Some a =>
        match Analysis.Req_idx a with
        | None => e
        | Some i =>
            match r_fine e with
            | None => set_Req_idx i e
            | Some x =>
                match Analysis.Req x i with
                | None => set_Req_idx i e
                | Some r =>
                    set_mF Analysis.mF
                      (set_mH Analysis.mH (set_Req r (set_Req_idx i e)))
                end
            end
        end
    end.
Proof.
  destruct e as [xs ys f rf ef ff ri rq h1 h2 m k v ev hp].
  unfold_cell. destruct ef as [a |]; cbn; [| reflexivity].
  destruct (Analysis.Req_idx a) as [i |]; cbn; [| reflexivity].
  destruct rf as [x |]; cbn; [| reflexivity].
  destruct (Analysis.Req x i) as [r |]; cbn; [| reflexivity].
  destruct m; reflexivity.
Qed.

Lemma exec21_eq (e : env) :
  exec Cell21 e
  = match Force_Constant e, nu e with
    | Some _, Some v => set_E_vib_au (Analysis.E_vib_au v) e
    | _, _ => e
    end.
Proof.
  destruct e as [xs ys f rf ef ff ri rq h1 h2 m k v ev hp].
  run_cell; reflexivity.
Qed.

(** Reduce record updates and projections, innermost first. *)
Ltac fields :=
  cbv beta iota delta
      [set_r_fine set_E_fine set_Req_idx set_Req set_mH set_mF set_E_vib_au
       r_array_au E_array E_spline r_fine E_fine Force_fine Req_idx Req mH
       mF mu Force_Constant nu E_vib_au Harm_Pot].

Ltac run13 :=
  rewrite (exec13_eq (mk_env _ _ _ _ _ _ _ _ _ _ _ _ _ _ _)); fields.
Ltac run18 :=
  rewrite (exec18_eq (mk_env _ _ _ _ _ _ _ _ _ _ _ _ _ _ _)); fields.
Ltac run21 :=
  rewrite (exec21_eq (mk_env _ _ _ _ _ _ _ _ _ _ _ _ _ _ _)); fields.






Lemma cell_eq_dec (c d : cell) : {c = d} + {c <> d}.
Proof.
  decide equality.
Qed.

Lemma exec21_twice_outcome (e : env) :
  snd (code Cell21 (exec Cell21 e)) = snd (code Cell21 e).
Proof.
  rewrite !cell21_outcome.
  destruct (exec_inputs Cell21 e) as (_ & _ & _ & _ & _ & Hk & Hv & _).
  now rewrite Hk, Hv.
Qed.

(** X17.  Cell 21 can be run before or after any other cell with the same
    result: the two orders leave the same namespace, cell 21 raises or
    returns the same either way, and so does the other cell. *)
Theorem cell21_runs_in_any_position (c : cell) (e : env) :
  exec Cell21 (exec c e) = exec c (exec Cell21 e)
  /\ snd (code Cell21 (exec c e)) = snd (code Cell21 e)
  /\ snd (code c (exec Cell21 e)) = snd (code c e).
Proof.
  assert (Hout : snd (code Cell21 (exec c e)) = snd (code Cell21 e)).
  { rewrite !cell21_outcome.
    destruct (exec_inputs c e) as (_ & _ & _ & _ & _ & Hk & Hv & _).
    now rewrite Hk, Hv. }
  split; [| split; [exact Hout |]].
  - destruct c;
      try (rewrite !(exec_plot_cells Cell11) by auto; reflexivity);
      try (rewrite !(exec_plot_cells Cell16) by auto; reflexivity);
      try (rewrite !(exec_plot_cells Cell24) by auto; reflexivity);
      try (rewrite !(exec_plot_cells Cell26) by auto; reflexivity).
    + destruct e as [xs ys f rf ef ff ri rq h1 h2 m k v ev hp].
      run13. run21.
      destruct f as [f |]; fields; run21;
        destruct k as [k |]; try destruct v as [v |]; fields; run13;
        reflexivity.
    + destruct e as [xs ys f rf ef ff ri rq h1 h2 m k v ev hp].
      run18. run21.
      destruct ef as [a |];
        [| run21; destruct k as [k |]; try destruct v as [v |]; fields;
           run18; reflexivity].
      destruct (Analysis.Req_idx a) as [i |] eqn:Hi;
        [| run21; destruct k as [k |]; try destruct v as [v |]; fields;
           run18; rewrite Hi; reflexivity].
      destruct rf as [x |]; fields;
        [| run21; destruct k as [k |]; try destruct v as [v |]; fields;
           run18; rewrite Hi; reflexivity].
      destruct (Analysis.Req x i) as [r |] eqn:Hr; fields; run21;
        destruct k as [k |]; try destruct v as [v |]; fields; run18;
        rewrite Hi, Hr; reflexivity.
    + reflexivity.
  - destruct (cell_eq_dec c Cell21) as [-> | Hc].
    { now rewrite exec21_twice_outcome. }
    clear Hout.
    destruct e as [xs ys f rf ef ff ri rq h1 h2 m k v ev hp].
    run21.
    destruct c; try congruence; try reflexivity;
      destruct k as [k |]; try destruct v as [v |]; fields;
      try reflexivity; run_cell; reflexivity.
Qed.

(** ** The grid's resolution *)

(** In exact arithmetic: for an energy curve with a single well on the
    grid's range (strictly decreasing up to its minimum at [rstar],
    strictly increasing after it), the separation the Extremum Locator
    returns is within one grid spacing of [rstar]. *)
Lemma locate_single_well (f : R -> R) (rstar : R) :
  0.5 * 1.89 <= rstar <= 2.3 * 1.89 ->
  (forall x y, 0.5 * 1.89 <= x -> x < y -> y <= rstar -> f y < f x) ->
  (forall x y, rstar <= x -> x < y -> y <= 2.3 * 1.89 -> f x < f y) ->
  exists Req,
    Analysis.locate Analysis.r_fine (Analysis.E_fine f Analysis.r_fine)
    = Some Req
    /\ Rabs (Req - rstar) <= (2.3 * 1.89 - 0.5 * 1.89) / 199.
Proof.
  intros [Hlo Hhi] Hdec Hinc.
  assert (Hlen : length (Analysis.E_fine f Analysis.r_fine)
                 = length Analysis.r_fine)
    by (unfold Analysis.E_fine; apply length_map).
  assert (Hne : Analysis.E_fine f Analysis.r_fine <> []).
  { intros Heq. rewrite Heq, r_fine_length in Hlen. discriminate. }
  destruct (locate_spec _ _ Hlen Hne) as (i & _ & Hi & _ & Hloc & Hmin & _).
  rewrite r_fine_length in Hi. rewrite Hlen, r_fine_length in Hmin.
  exists (nth i Analysis.r_fine 0). split; [exact Hloc |].
  set (step := (2.3 * 1.89 - 0.5 * 1.89) / 199).
  assert (Hstep : 0 < step) by (unfold step; lra).
  pose proof (r_fine_nth i Hi) as Hgi. fold step in Hgi.
  pose proof (r_fine_bounds i Hi) as Hbi.
  apply Rabs_le. split.
  - (* not more than a step below *)
    destruct (Rle_lt_dec (- step) (nth i Analysis.r_fine 0 - rstar))
      as [Hok | Hbad]; [exact Hok | exfalso].
    assert (Hi1 : (S i < 200)%nat).
    { destruct (Nat.eq_dec i 199) as [-> | Hn]; [| lia].
      rewrite Hgi in Hbad.
      replace (INR 199) with 199 in Hbad
        by (rewrite INR_IZR_INZ; reflexivity).
      unfold step in Hbad, Hstep. lra. }
    pose proof (r_fine_nth (S i) Hi1) as Hgj. fold step in Hgj.
    rewrite S_INR in Hgj.
    specialize (Hmin (S i) Hi1).
    rewrite !E_fine_nth in Hmin by lia.
    assert (f (nth (S i) Analysis.r_fine 0) < f (nth i Analysis.r_fine 0)).
    { apply Hdec; lra. }
    lra.
  - (* not more than a step above *)
    destruct (Rle_lt_dec (nth i Analysis.r_fine 0 - rstar) step)
      as [Hok | Hbad]; [exact Hok | exfalso].
    destruct i as [| i].
    { rewrite Hgi in Hbad. simpl in Hbad. lra. }
    assert (Hi1 : (i < 200)%nat) by lia.
    pose proof (r_fine_nth i Hi1) as Hgj. fold step in Hgj.
    rewrite S_INR in Hgi.
    specialize (Hmin i Hi1).
    rewrite !E_fine_nth in Hmin by lia.
    pose proof (r_fine_bounds i Hi1) as Hbj.
    assert (f (nth i Analysis.r_fine 0) < f (nth (S i) Analysis.r_fine 0)).
    { apply Hinc; lra. }
    lra.
Qed.

(** ** The scan and the energy scale *)



(** ** [np.linspace] in general *)

(** X9.  [np.linspace(start, stop, num)] returns no sample for [num = 0]
    and the single sample [start] for [num = 1], in which [stop] plays no
    part; for [num >= 2] it returns [num] samples of which the first is
    [start], the last is [stop], and each is [(stop - start)/(num - 1)]
    above the one before, so that they increase strictly when
    [start < stop].  In binary64 as well the call returns [num] samples
    and the last one is [stop] itself, whatever rounding does to the
    others. *)
Theorem linspace_samples (start stop : R) (num : nat) :
  Numpy.linspace start stop 0 = []
  /\ Numpy.linspace start stop 1 = [start]
  /\ ((1 < num)%nat ->
      length (Numpy.linspace start stop num) = num
      /\ nth_error (Numpy.linspace start stop num) 0 = Some start
      /\ nth_error (Numpy.linspace start stop num) (num - 1) = Some stop
      /\ (forall i, (S i < num)%nat ->
            nth (S i) (Numpy.linspace start stop num) 0
            - nth i (Numpy.linspace start stop num) 0
            = (stop - start) / INR (num - 1))
      /\ (start < stop ->
          forall i j, (i < j)%nat -> (j < num)%nat ->
            nth i (Numpy.linspace start stop num) 0
            < nth j (Numpy.linspace start stop num) 0))
  /\ (forall a b : PrimFloat.float,
        (1 < num)%nat ->
        length (Binary64.linspace a b num) = num
        /\ nth_error (Binary64.linspace a b num) (num - 1) = Some b).
Proof.
  split; [reflexivity |].
  split.
  { unfold Numpy.linspace. simpl. f_equal. ring. }
  split; cycle 1.
  { intros a b Hnum. unfold Binary64.linspace.
    rewrite length_map, length_seq, nth_error_map, nth_error_seq.
    destruct (Nat.ltb_spec (num - 1) num) as [_ | Hc]; [| lia].
    destruct (Nat.ltb_spec 1 num) as [_ | Hc]; [| lia].
    cbn [option_map Nat.add andb]. now rewrite Nat.eqb_refl. }
  intros Hnum.
  pose proof (INR_pred_pos num Hnum) as Hd.
  split; [apply linspace_length |].
  split.
  { rewrite linspace_nth_error by lia. simpl. f_equal. ring. }
  split.
  { rewrite linspace_nth_error by lia. f_equal. field. lra. }
  split.
  - intros i Hi. rewrite !linspace_nth by lia. rewrite S_INR. ring.
  - intros Hlt i j Hij Hj. now apply linspace_increasing.
Qed.

Lemma linspace_samples_witness :
  nth_error (Numpy.linspace 1 2 3) 0 = Some 1
  /\ nth_error (Numpy.linspace 1 2 3) 2 = Some 2.
Proof.
  destruct (linspace_samples 1 2 3) as (_ & _ & H & _).
  destruct H as (_ & H0 & H2 & _); [lia |].
  split; [exact H0 | exact H2].
Defined.

(** ** The spectrum loader *)

Lemma loop_rows {V : Type} (df : Spectrum.DataFrame V) :
  (2 <= Spectrum.ncols df)%nat ->
  forall (n k : nat) (s : Spectrum.state V),
    (k + n <= Spectrum.nrows df)%nat ->
    Spectrum.loop df (seq k n) s
    = (Spectrum.mk_state
         (Spectrum.wn s ++ map (fun i => Spectrum.value df i 0) (seq k n))
         (Spectrum.ab s ++ map (fun i => Spectrum.value df i 1) (seq k n))
         (match n with
          | O => Spectrum.i s
          | S m => Some (k + m)%nat
          end),
       Returned tt).
Proof.
  intros Hcols. induction n as [| n IH]; intros k s Hk.
  - simpl. rewrite !app_nil_r. now destruct s.
  - cbn [seq Spectrum.loop map]. unfold Spectrum.iloc.
    destruct (Nat.ltb_spec k (Spectrum.nrows df)) as [_ | Hc]; [| lia].
    destruct (Nat.ltb_spec 0 (Spectrum.ncols df)) as [_ | Hc]; [| lia].
    destruct (Nat.ltb_spec 1 (Spectrum.ncols df)) as [_ | Hc]; [| lia].
    cbn [andb]. rewrite IH by lia.
    cbn [Spectrum.wn Spectrum.ab Spectrum.i].
    rewrite <- !app_assoc. cbn [app].
    f_equal. f_equal.
    destruct n; f_equal; lia.
Qed.

(** X10.  On a frame with at least two columns cell 4 completes without
    error: [wn] is the first column and [ab] the second, top to bottom,
    each with one entry per row, so that the plot of [ab] against [wn]
    is accepted; [i] ends at the last row's index, or keeps its binding
    when the frame has no row.  Columns beyond the second are ignored. *)
Theorem cell4_reads_two_columns {V : Type}
        (df : Spectrum.DataFrame V) (s : Spectrum.state V) :
  (2 <= Spectrum.ncols df)%nat ->
  Spectrum.cell4 df s
  = (Spectrum.mk_state
       (Spectrum.column df 0) (Spectrum.column df 1)
       (match Spectrum.nrows df with
        | O => Spectrum.i s
        | S m => Some m
        end),
     Returned tt)
  /\ length (Spectrum.wn (fst (Spectrum.cell4 df s))) = Spectrum.nrows df
  /\ length (Spectrum.ab (fst (Spectrum.cell4 df s))) = Spectrum.nrows df.
Proof.
  intros Hcols.
  assert (Hrun : Spectrum.cell4 df s
                 = (Spectrum.mk_state
                      (Spectrum.column df 0) (Spectrum.column df 1)
                      (match Spectrum.nrows df with
                       | O => Spectrum.i s
                       | S m => Some m
                       end),
                    Returned tt)).
  { unfold Spectrum.cell4.
    rewrite (loop_rows df Hcols (Spectrum.nrows df) 0) by lia.
    cbn [Spectrum.wn Spectrum.ab Spectrum.i app Nat.add].
    rewrite !length_map, Nat.eqb_refl. reflexivity. }
  rewrite Hrun. cbn [fst Spectrum.wn Spectrum.ab].
  unfold Spectrum.column. rewrite !length_map, length_seq. auto.
Qed.

Lemma cell4_reads_two_columns_witness :
  Spectrum.cell4 Examples.spectrum Examples.nothing_bound
  = (Spectrum.mk_state [0; 10; 20]%nat [1; 11; 21]%nat (Some 2%nat),
     Returned tt).
Proof.
  apply (cell4_reads_two_columns Examples.spectrum Examples.nothing_bound).
  simpl. lia.
Defined.

(** X11.  On a frame with fewer than two columns and at least one row
    cell 4 raises [IndexError] in the first iteration, with [i = 0] and
    [ab] empty; if the frame has one column, [wn] has already received
    that row's value, so the two lists are left with different lengths.
    With no row the loop body is never entered and the cell completes
    with both lists empty. *)
Theorem cell4_narrow_frame {V : Type}
        (df : Spectrum.DataFrame V) (s : Spectrum.state V) :
  (Spectrum.ncols df < 2)%nat ->
  Spectrum.cell4 df s
  = match Spectrum.nrows df with
    | O => (Spectrum.mk_state [] [] (Spectrum.i s), Returned tt)
    | S _ =>
        (Spectrum.mk_state
           (if (Spectrum.ncols df =? 1)%nat then [Spectrum.value df 0 0]
            else [])
           [] (Some 0%nat),
         Raised IndexError)
    end.
Proof.
  intros Hcols. destruct df as [n c v]. cbn in *.
  unfold Spectrum.cell4. cbn [Spectrum.nrows].
  destruct n as [| n]; [reflexivity |].
  cbn [seq Spectrum.loop]. unfold Spectrum.iloc.
  cbn [Spectrum.nrows Spectrum.ncols Spectrum.value Spectrum.wn Spectrum.ab
       Spectrum.i].
  destruct c as [| [| c]]; [reflexivity | reflexivity | lia].
Qed.

Lemma cell4_narrow_frame_witness :
  Spectrum.cell4 Examples.one_column Examples.nothing_bound
  = (Spectrum.mk_state [0%nat] [] (Some 0%nat), Raised IndexError).
Proof.
  apply (cell4_narrow_frame Examples.one_column Examples.nothing_bound).
  simpl. lia.
Defined.

(** ** The energy loader *)

Lemma prefix_app (s t : string) : String.prefix s (s ++ t) = true.
Proof.
  induction s as [| c s IH]; simpl.
  - now destruct t.
  - destruct (Ascii.ascii_dec c c) as [_ | Hc]; [exact IH | congruence].
Qed.

Lemma replace_from_skip (old new s1 s2 : string) :
  Loader.replace_from old new (String.length s1) (s1 ++ s2)
  = Loader.replace_from old new 0 s2.
Proof.
  induction s1 as [| c s1 IH]; simpl; [reflexivity | exact IH].
Qed.

Lemma prefix_other (a c : Ascii.ascii) (old' s : string) :
  Ascii.eqb a c = false ->
  String.prefix (String a old') (String c s) = false.
Proof.
  intros Hac. simpl.
  destruct (Ascii.ascii_dec a c) as [-> | _]; [| reflexivity].
  now rewrite Ascii.eqb_refl in Hac.
Qed.

Lemma replace_from_absent (a : Ascii.ascii) (old' new q : string) :
  Loader.occurs a q = false ->
  Loader.replace_from (String a old') new 0 q = q.
Proof.
  induction q as [| c q IH]; [reflexivity |].
  cbn [Loader.occurs]. destruct (Ascii.eqb a c) eqn:Hac; [discriminate |].
  intros Hq. cbn [Loader.replace_from].
  rewrite (prefix_other a c old' q Hac). now rewrite IH.
Qed.

Lemma replace_from_fills (a : Ascii.ascii) (old' new p q : string) :
  Loader.occurs a p = false -> Loader.occurs a q = false ->
  Loader.replace_from (String a old') new 0 (p ++ String a old' ++ q)
  = (p ++ new ++ q)%string.
Proof.
  intros Hp Hq. induction p as [| c p IH].
  - change (("" ++ String a old' ++ q)%string)
      with (String a (old' ++ q)).
    cbn [Loader.replace_from].
    change (String a (old' ++ q)) with ((String a old' ++ q)%string).
    rewrite prefix_app. cbn [String.length].
    rewrite Nat.sub_1_r. cbn [Nat.pred].
    rewrite replace_from_skip, (replace_from_absent a old' new q Hq).
    reflexivity.
  - cbn [Loader.occurs] in Hp.
    destruct (Ascii.eqb a c) eqn:Hac; [discriminate |].
    change ((String c p ++ String a old' ++ q)%string)
      with (String c (p ++ String a old' ++ q)).
    cbn [Loader.replace_from].
    rewrite (prefix_other a c old' _ Hac), (IH Hp). reflexivity.
Qed.

(** X12.  [s.replace(old, new)] on a text that contains [old] once, with
    the first character of [old] occurring nowhere else in it, returns
    the text with [new] in the place of [old] and the rest unchanged;
    [new] itself is not searched, so it may contain [old].  A text in
    which that character does not occur at all is returned as it is, and
    so is the text before the marker. *)
Theorem replace_fills_marker (a : Ascii.ascii) (old' new p q : string) :
  Loader.occurs a p = false -> Loader.occurs a q = false ->
  Loader.replace (p ++ String a old' ++ q) (String a old') new
  = (p ++ new ++ q)%string
  /\ Loader.replace p (String a old') new = p
  /\ Loader.replace (p ++ String a old' ++ q) (String a old')
                    (new ++ String a old')
     = (p ++ (new ++ String a old') ++ q)%string.
Proof.
  intros Hp Hq. unfold Loader.replace.
  split; [now apply replace_from_fills |].
  split; [now apply replace_from_absent |].
  now apply replace_from_fills.
Qed.

Lemma replace_fills_marker_witness :
  Loader.replace Loader.template Loader.marker "0.5"
  = ("H" ++ String (Ascii.ascii_of_nat 10) "F 1 0.5")%string.
Proof.
  apply (replace_fills_marker (Ascii.ascii_of_nat 42) "*R**" "0.5"
           ("H" ++ String (Ascii.ascii_of_nat 10) "F 1 ")%string "").
  - reflexivity.
  - reflexivity.
Defined.

Lemma append_empty_r (s : string) : (s ++ "")%string = s.
Proof.
  induction s as [| c s IH]; simpl; [reflexivity | now rewrite IH].
Qed.

Lemma template_filled (t : string) :
  Loader.replace Loader.template Loader.marker t
  = ("H" ++ String (Ascii.ascii_of_nat 10) "F 1 " ++ t)%string.
Proof.
  pose proof (replace_from_fills (Ascii.ascii_of_nat 42) "*R**" t
                ("H" ++ String (Ascii.ascii_of_nat 10) "F 1 ")%string ""
                eq_refl eq_refl) as H.
  rewrite !append_empty_r in H. exact H.
Qed.

(** ** Objects on the heap *)

Section HeapFacts.

Context {A : Type}.
Implicit Types (h : Kernel.heap A) (l : Kernel.loc).


Lemma length_append_at l (x : A) h :
  length (Kernel.append_at l x h) = length h.
Proof.
  revert l. induction h as [| o h IH]; intros [| l]; simpl; auto.
Qed.

Lemma firstn_append_at (n : nat) l (x : A) h :
  (n <= l)%nat -> firstn n (Kernel.append_at l x h) = firstn n h.
Proof.
  revert n l. induction h as [| o h IH]; intros n l Hn; [reflexivity |].
  destruct l as [| l].
  - assert (n = 0%nat) as -> by lia. reflexivity.
  - destruct n as [| n]; [reflexivity |]. simpl. f_equal. apply IH. lia.
Qed.

Lemma deref_alloc (o : list A) h :
  Kernel.deref (Kernel.alloc o h) (length h) = o.
Proof.
  unfold Kernel.deref, Kernel.alloc.
  rewrite app_nth2 by lia. now rewrite Nat.sub_diag.
Qed.

Lemma deref_alloc_old (o : list A) h l :
  (l < length h)%nat -> Kernel.deref (Kernel.alloc o h) l = Kernel.deref h l.
Proof.
  intros Hl. unfold Kernel.deref, Kernel.alloc. now apply app_nth1.
Qed.

Lemma deref_append_at l (x : A) h :
  (l < length h)%nat ->
  Kernel.deref (Kernel.append_at l x h) l = Kernel.deref h l ++ [x].
Proof.
  unfold Kernel.deref. revert l.
  induction h as [| o h IH]; intros [| l] Hl; simpl in *; try lia; auto.
  apply IH. lia.
Qed.

Lemma deref_append_at_other l l' (x : A) h :
  l <> l' -> Kernel.deref (Kernel.append_at l x h) l' = Kernel.deref h l'.
Proof.
  unfold Kernel.deref. revert l l'.
  induction h as [| o h IH]; intros [| l] [| l'] Hl; simpl; auto;
    try congruence.
Qed.

Lemma kept_refl h : Kernel.kept h h.
Proof.
  unfold Kernel.kept. apply firstn_all.
Qed.

Lemma kept_length h0 h : Kernel.kept h0 h -> (length h0 <= length h)%nat.
Proof.
  unfold Kernel.kept. intros H.
  apply (f_equal (@length (list A))) in H.
  rewrite length_firstn in H. lia.
Qed.

Lemma kept_alloc (o : list A) h0 h :
  Kernel.kept h0 h -> Kernel.kept h0 (Kernel.alloc o h).
Proof.
  intros H. pose proof (kept_length _ _ H) as Hlen.
  unfold Kernel.kept, Kernel.alloc in *.
  rewrite firstn_app.
  replace (length h0 - length h)%nat with 0%nat by lia.
  simpl. now rewrite app_nil_r.
Qed.

Lemma kept_append_at l (x : A) h0 h :
  Kernel.kept h0 h -> (length h0 <= l)%nat ->
  Kernel.kept h0 (Kernel.append_at l x h).
Proof.
  unfold Kernel.kept. intros H Hl. now rewrite firstn_append_at.
Qed.




End HeapFacts.

Create HintDb kernel.
#[export] Hint Resolve kept_refl kept_alloc kept_append_at : kernel.

Ltac kernel_unfold :=
  unfold Kernel.exec, Kernel.code, Kernel.cell1, Kernel.cell4, Kernel.cell6,
    Kernel.cell7, Kernel.cell7_on, Kernel.cell7_lists, Kernel.cell7_loops,
    Kernel.cell9, Kernel.cell11, Kernel.cell13, Kernel.cell16, Kernel.cell18,
    Kernel.cell21, Kernel.cell24, Kernel.cell26,
    Kernel.contents, Kernel.molecule_contents, Kernel.value_contents,
    Kernel.bind, Kernel.load, Kernel.lift, Kernel.call, Kernel.use,
    Kernel.import_as, Kernel.plt_plot, Kernel.ret, Kernel.raise,
    Kernel.assign_scalar, Kernel.assign_integer, Kernel.assign_molecule,
    Kernel.assign_text, Kernel.assign_frame,
    Kernel.new_float_list, Kernel.new_molecule_list, Kernel.new_value_list,
    Kernel.append_float, Kernel.append_molecule, Kernel.append_value.

Ltac kernel_unfold_body :=
  unfold Kernel.cell4_body, Kernel.for_r_body, Kernel.for_mol_body;
  kernel_unfold.

Ltac kernel_fields :=
  cbv beta iota delta
      [Kernel.set_floats Kernel.set_molecule_lists Kernel.set_value_lists
       Kernel.set_modules Kernel.set_float_list Kernel.set_molecule_list
       Kernel.set_value_list Kernel.set_scalar Kernel.set_integer
       Kernel.set_molecule Kernel.set_text Kernel.set_spline Kernel.set_frame
       Kernel.floats Kernel.molecule_lists Kernel.value_lists Kernel.modules
       Kernel.float_list Kernel.molecule_list Kernel.value_list Kernel.scalar
       Kernel.integer Kernel.molecule Kernel.text Kernel.spline Kernel.frame
       fst snd].

Ltac kernel_fields_all :=
  cbv beta iota delta
      [Kernel.set_floats Kernel.set_molecule_lists Kernel.set_value_lists
       Kernel.set_modules Kernel.set_float_list Kernel.set_molecule_list
       Kernel.set_value_list Kernel.set_scalar Kernel.set_integer
       Kernel.set_molecule Kernel.set_text Kernel.set_spline Kernel.set_frame
       Kernel.floats Kernel.molecule_lists Kernel.value_lists Kernel.modules
       Kernel.float_list Kernel.molecule_list Kernel.value_list Kernel.scalar
       Kernel.integer Kernel.molecule Kernel.text Kernel.spline Kernel.frame
       fst snd] in *.

Ltac kernel_cases :=
  repeat match goal with
         | |- context [match ?x with _ => _ end] =>
             lazymatch x with
             | context [match _ with _ => _ end] => fail
             | _ => destruct x eqn:?; kernel_fields
             end
         end.

Section KernelFacts.

Variable w : Kernel.world.



Lemma for_each_invariant {A : Type} (I : Kernel.store w -> Prop)
      (body : A -> Kernel.M w unit) (xs : list A) :
  (forall x s, I s -> I (fst (body x s))) ->
  forall s, I s -> I (fst (Kernel.for_each w xs body s)).
Proof.
  intros Hbody. induction xs as [| x xs IH]; intros s Hs; [exact Hs |].
  cbn [Kernel.for_each]. unfold Kernel.bind at 1.
  specialize (Hbody x s Hs).
  destruct (body x s) as [s' [[] | e]]; cbn [fst] in *.
  - now apply IH.
  - exact Hbody.
Qed.















(** *** The names no cell assigns *)

Ltac kernel_names :=
  unfold Kernel.inputs_kept, Kernel.masses_kept; kernel_fields;
  unfold Kernel.upd; cbn; repeat split; try reflexivity; try assumption.

Lemma names_kept_trans (s0 s1 s2 : Kernel.store w) :
  Kernel.inputs_kept w s0 s1 /\ Kernel.masses_kept w s0 s1 ->
  Kernel.inputs_kept w s1 s2 /\ Kernel.masses_kept w s1 s2 ->
  Kernel.inputs_kept w s0 s2 /\ Kernel.masses_kept w s0 s2.
Proof.
  unfold Kernel.inputs_kept, Kernel.masses_kept.
  intros ((A1 & A2 & A3 & A4 & A5 & A6 & A7 & A8) & A9 & A10)
         ((B1 & B2 & B3 & B4 & B5 & B6 & B7 & B8) & B9 & B10).
  repeat split; congruence.
Qed.

Lemma body_names_kept {A : Type} (body : A -> Kernel.M w unit) :
  (forall x s, Kernel.inputs_kept w s (fst (body x s))
               /\ Kernel.masses_kept w s (fst (body x s))) ->
  forall xs s,
    Kernel.inputs_kept w s (fst (Kernel.for_each w xs body s))
    /\ Kernel.masses_kept w s (fst (Kernel.for_each w xs body s)).
Proof.
  intros Hbody xs s.
  apply (for_each_invariant
           (fun s' => Kernel.inputs_kept w s s' /\ Kernel.masses_kept w s s')).
  - intros x s1 H1. apply (names_kept_trans s s1); [exact H1 | apply Hbody].
  - kernel_names.
Qed.

Lemma loop_bodies_keep_names :
  (forall k s, Kernel.inputs_kept w s (fst (Kernel.cell4_body w k s))
               /\ Kernel.masses_kept w s (fst (Kernel.cell4_body w k s)))
  /\ (forall x s, Kernel.inputs_kept w s (fst (Kernel.for_r_body w x s))
                  /\ Kernel.masses_kept w s (fst (Kernel.for_r_body w x s)))
  /\ (forall m s, Kernel.inputs_kept w s (fst (Kernel.for_mol_body w m s))
                  /\ Kernel.masses_kept w s
                       (fst (Kernel.for_mol_body w m s))).
Proof.
  split; [| split]; intros x s; destruct s; kernel_unfold_body;
    kernel_fields; kernel_cases; kernel_names.
Qed.

Ltac kernel_loop_names body body_keeps :=
  lazymatch goal with
  | H : Kernel.for_each _ ?xs body ?st = (?s1, _) |- _ =>
      let K := fresh "K" in
      assert (K := body_names_kept body body_keeps xs st);
      rewrite H in K; cbn [fst] in K; clear H
  | _ => idtac
  end.

Ltac kernel_names_all :=
  unfold Kernel.inputs_kept, Kernel.masses_kept in *; kernel_fields_all;
  unfold Kernel.upd in *; cbn in *;
  repeat match goal with H : _ /\ _ |- _ => destruct H end;
  repeat split; congruence.


Lemma exec_masses_kept (c : Kernel.cell) (s : Kernel.store w) :
  c <> Kernel.Cell18 -> Kernel.masses_kept w s (Kernel.exec w c s).
Proof.
  intros Hc.
  destruct loop_bodies_keep_names as (B4 & Br & Bm).
  destruct s, c; try congruence; clear Hc;
    kernel_unfold; kernel_fields; kernel_cases;
    kernel_loop_names (Kernel.cell4_body w) B4;
    kernel_loop_names (Kernel.for_r_body w) Br;
    kernel_loop_names (Kernel.for_mol_body w) Bm;
    kernel_names_all.
Qed.

Lemma cell18_masses (s : Kernel.store w) :
  Kernel.masses_kept w s (Kernel.exec w Kernel.Cell18 s)
  \/ (Kernel.scalar w (Kernel.exec w Kernel.Cell18 s) "mH" = Some 1836
      /\ Kernel.scalar w (Kernel.exec w Kernel.Cell18 s) "mF" = Some 34883).
Proof.
  destruct s. kernel_unfold. kernel_fields. kernel_cases.
  all: try (left; kernel_names_all).
  all: right; kernel_fields; unfold Kernel.upd; cbn; split; reflexivity.
Qed.

Lemma exec_masses_stay (c : Kernel.cell) (s : Kernel.store w) :
  (Kernel.scalar w s "mH" = Some 1836 ->
   Kernel.scalar w (Kernel.exec w c s) "mH" = Some 1836)
  /\ (Kernel.scalar w s "mF" = Some 34883 ->
      Kernel.scalar w (Kernel.exec w c s) "mF" = Some 34883).
Proof.
  destruct (Kernel.same_cell c Kernel.Cell18) as [-> | Hc].
  - destruct (cell18_masses s) as [[H1 H2] | [H1 H2]];
      rewrite H1, H2; auto.
  - destruct (exec_masses_kept c s Hc) as [H1 H2]. rewrite H1, H2. auto.
Qed.

(** *** What the loops of cell 7 compute *)

Lemma upd_same {A : Type} (m : string -> A) (name : string) (v : A) :
  Kernel.upd m name v name = v.
Proof.
  unfold Kernel.upd. now rewrite String.eqb_refl.
Qed.

Lemma upd_other {A : Type} (m : string -> A) (name name' : string) (v : A) :
  name <> name' -> Kernel.upd m name v name' = m name'.
Proof.
  unfold Kernel.upd. intros H.
  now destruct (String.eqb_spec name name').
Qed.

Ltac kernel_same :=
  unfold Kernel.same_bindings; kernel_fields; repeat split; reflexivity.

Lemma for_r_body_runs (x : R) (s : Kernel.store w) (l : Kernel.loc)
      (m : Kernel.Molecule w) :
  Kernel.modules w s "psi4" = true ->
  Kernel.text w s "mol_tmpl" = Some Loader.template ->
  Kernel.molecule_list w s "molecules" = Some l ->
  Kernel.geometry_of w x = inl m ->
  exists s',
    Kernel.for_r_body w x s = (s', Kernel.Returned w unit tt)
    /\ Kernel.same_bindings w s s'
    /\ Kernel.floats w s' = Kernel.floats w s
    /\ Kernel.molecule_lists w s'
       = Kernel.append_at l m (Kernel.molecule_lists w s).
Proof.
  intros Hp Ht Hl Hg. destruct s. kernel_fields_all.
  unfold Kernel.geometry_of, Kernel.zmatrix in Hg.
  eexists. split.
  - kernel_unfold_body. kernel_fields.
    repeat (first [rewrite Hp | rewrite Ht | rewrite Hg | rewrite Hl
                  | rewrite upd_same]; kernel_fields).
    reflexivity.
  - split; [kernel_same |]. split; reflexivity.
Qed.

Lemma for_r_body_fails (x : R) (s : Kernel.store w)
      (f : Kernel.Failure w) :
  Kernel.modules w s "psi4" = true ->
  Kernel.text w s "mol_tmpl" = Some Loader.template ->
  Kernel.geometry_of w x = inr f ->
  exists s',
    Kernel.for_r_body w x s
    = (s', Kernel.Raised w unit (Kernel.LibraryError w f))
    /\ Kernel.same_bindings w s s'
    /\ Kernel.floats w s' = Kernel.floats w s
    /\ Kernel.molecule_lists w s' = Kernel.molecule_lists w s.
Proof.
  intros Hp Ht Hg. destruct s. kernel_fields_all.
  unfold Kernel.geometry_of, Kernel.zmatrix in Hg.
  eexists. split.
  - kernel_unfold_body. kernel_fields.
    repeat (first [rewrite Hp | rewrite Ht | rewrite Hg
                  | rewrite upd_same]; kernel_fields).
    reflexivity.
  - split; [kernel_same |]. split; reflexivity.
Qed.

Lemma for_r_body_unbound (x : R) (s : Kernel.store w) :
  Kernel.modules w s "psi4" = false ->
  exists s',
    Kernel.for_r_body w x s
    = (s', Kernel.Raised w unit (Kernel.NameError w "psi4"))
    /\ Kernel.same_bindings w s s'
    /\ Kernel.floats w s' = Kernel.floats w s
    /\ Kernel.molecule_lists w s' = Kernel.molecule_lists w s.
Proof.
  intros Hp. destruct s. kernel_fields_all.
  eexists. split.
  - kernel_unfold_body. kernel_fields. rewrite Hp. reflexivity.
  - split; [kernel_same |]. split; reflexivity.
Qed.

Lemma same_bindings_trans (s0 s1 s2 : Kernel.store w) :
  Kernel.same_bindings w s0 s1 -> Kernel.same_bindings w s1 s2 ->
  Kernel.same_bindings w s0 s2.
Proof.
  unfold Kernel.same_bindings.
  intros (A1 & A2 & A3 & A4 & A5 & A6 & A7) (B1 & B2 & B3 & B4 & B5 & B6 & B7).
  repeat split; congruence.
Qed.

(** The first loop appends one molecule to [molecules] for each bond
    length, until a call fails. *)
Lemma for_r_loop_runs (rs : list R) (ms : list (Kernel.Molecule w)) :
  Forall2 (fun x m => Kernel.geometry_of w x = inl m) rs ms ->
  forall (s : Kernel.store w) (l : Kernel.loc),
    Kernel.modules w s "psi4" = true ->
    Kernel.text w s "mol_tmpl" = Some Loader.template ->
    Kernel.molecule_list w s "molecules" = Some l ->
    (l < length (Kernel.molecule_lists w s))%nat ->
    exists s',
      Kernel.for_each w rs (Kernel.for_r_body w) s
      = (s', Kernel.Returned w unit tt)
      /\ Kernel.same_bindings w s s'
      /\ Kernel.floats w s' = Kernel.floats w s
      /\ length (Kernel.molecule_lists w s')
         = length (Kernel.molecule_lists w s)
      /\ Kernel.deref (Kernel.molecule_lists w s') l
         = Kernel.deref (Kernel.molecule_lists w s) l ++ ms.
Proof.
  induction 1 as [| x m rs ms Hx _ IH]; intros s l Hp Ht Hl Hlen.
  - exists s. cbn. rewrite app_nil_r.
    repeat split; reflexivity.
  - destruct (for_r_body_runs x s l m Hp Ht Hl Hx)
      as (s1 & Hrun & Hsame & Hfl & Hml).
    pose proof Hsame as (S1 & S2 & S3 & S4 & S5 & S6 & S7).
    destruct (IH s1 l) as (s2 & Hrun2 & Hsame2 & Hfl2 & Hlen2 & Hd2).
    + now rewrite S1.
    + now rewrite S5.
    + now rewrite S3.
    + rewrite Hml, length_append_at. exact Hlen.
    + exists s2. cbn [Kernel.for_each]. unfold Kernel.bind at 1.
      rewrite Hrun, Hrun2.
      split; [reflexivity |].
      split; [eapply same_bindings_trans; eassumption |].
      split; [congruence |].
      split; [rewrite Hlen2, Hml; apply length_append_at |].
      rewrite Hd2, Hml, deref_append_at by exact Hlen.
      now rewrite <- app_assoc.
Qed.

Lemma for_r_loop_fails (pre : list R) (ms : list (Kernel.Molecule w)) :
  Forall2 (fun x m => Kernel.geometry_of w x = inl m) pre ms ->
  forall (x : R) (post : list R) (f : Kernel.Failure w)
         (s : Kernel.store w) (l : Kernel.loc),
    Kernel.geometry_of w x = inr f ->
    Kernel.modules w s "psi4" = true ->
    Kernel.text w s "mol_tmpl" = Some Loader.template ->
    Kernel.molecule_list w s "molecules" = Some l ->
    (l < length (Kernel.molecule_lists w s))%nat ->
    exists s',
      Kernel.for_each w (pre ++ x :: post) (Kernel.for_r_body w) s
      = (s', Kernel.Raised w unit (Kernel.LibraryError w f))
      /\ Kernel.same_bindings w s s'
      /\ Kernel.floats w s' = Kernel.floats w s
      /\ length (Kernel.molecule_lists w s')
         = length (Kernel.molecule_lists w s)
      /\ Kernel.deref (Kernel.molecule_lists w s') l
         = Kernel.deref (Kernel.molecule_lists w s) l ++ ms.
Proof.
  induction 1 as [| x0 m pre ms Hx0 _ IH];
    intros x post f s l Hx Hp Ht Hl Hlen.
  - destruct (for_r_body_fails x s f Hp Ht Hx)
      as (s1 & Hrun & Hsame & Hfl & Hml).
    exists s1. cbn [app Kernel.for_each]. unfold Kernel.bind at 1.
    rewrite Hrun, Hml, app_nil_r. auto.
  - destruct (for_r_body_runs x0 s l m Hp Ht Hl Hx0)
      as (s1 & Hrun & Hsame & Hfl & Hml).
    pose proof Hsame as (S1 & S2 & S3 & S4 & S5 & S6 & S7).
    destruct (IH x post f s1 l Hx)
      as (s2 & Hrun2 & Hsame2 & Hfl2 & Hlen2 & Hd2).
    + now rewrite S1.
    + now rewrite S5.
    + now rewrite S3.
    + rewrite Hml, length_append_at. exact Hlen.
    + exists s2. cbn [app Kernel.for_each]. unfold Kernel.bind at 1.
      rewrite Hrun, Hrun2.
      split; [reflexivity |].
      split; [eapply same_bindings_trans; eassumption |].
      split; [congruence |].
      split; [rewrite Hlen2, Hml; apply length_append_at |].
      rewrite Hd2, Hml, deref_append_at by exact Hlen.
      now rewrite <- app_assoc.
Qed.

Lemma for_mol_body_runs (m : Kernel.Molecule w) (s : Kernel.store w)
      (l : Kernel.loc) (v : R) :
  Kernel.modules w s "psi4" = true ->
  Kernel.float_list w s "RHF_E_array" = Some l ->
  Kernel.energy_of w m = inl v ->
  exists s',
    Kernel.for_mol_body w m s = (s', Kernel.Returned w unit tt)
    /\ Kernel.same_bindings w s s'
    /\ Kernel.molecule_lists w s' = Kernel.molecule_lists w s
    /\ Kernel.floats w s' = Kernel.append_at l v (Kernel.floats w s).
Proof.
  intros Hp Hl Hg. destruct s. kernel_fields_all.
  unfold Kernel.energy_of in Hg.
  eexists. split.
  - kernel_unfold_body. kernel_fields.
    repeat (first [rewrite Hp | rewrite Hg | rewrite Hl
                  | rewrite upd_same]; kernel_fields).
    reflexivity.
  - split; [kernel_same |]. split; reflexivity.
Qed.

Lemma for_mol_body_fails (m : Kernel.Molecule w) (s : Kernel.store w)
      (f : Kernel.Failure w) :
  Kernel.modules w s "psi4" = true ->
  Kernel.energy_of w m = inr f ->
  exists s',
    Kernel.for_mol_body w m s
    = (s', Kernel.Raised w unit (Kernel.LibraryError w f))
    /\ Kernel.same_bindings w s s'
    /\ Kernel.molecule_lists w s' = Kernel.molecule_lists w s
    /\ Kernel.floats w s' = Kernel.floats w s.
Proof.
  intros Hp Hg. destruct s. kernel_fields_all.
  unfold Kernel.energy_of in Hg.
  eexists. split.
  - kernel_unfold_body. kernel_fields.
    repeat (first [rewrite Hp | rewrite Hg | rewrite upd_same];
            kernel_fields).
    reflexivity.
  - split; [kernel_same |]. split; reflexivity.
Qed.

(** The second loop appends one energy to [RHF_E_array] for each
    molecule, until a call fails; no other list changes. *)
Lemma for_mol_loop_runs (ms : list (Kernel.Molecule w)) (es : list R) :
  Forall2 (fun m v => Kernel.energy_of w m = inl v) ms es ->
  forall (s : Kernel.store w) (l : Kernel.loc),
    Kernel.modules w s "psi4" = true ->
    Kernel.float_list w s "RHF_E_array" = Some l ->
    (l < length (Kernel.floats w s))%nat ->
    exists s',
      Kernel.for_each w ms (Kernel.for_mol_body w) s
      = (s', Kernel.Returned w unit tt)
      /\ Kernel.same_bindings w s s'
      /\ Kernel.molecule_lists w s' = Kernel.molecule_lists w s
      /\ length (Kernel.floats w s') = length (Kernel.floats w s)
      /\ Kernel.deref (Kernel.floats w s') l
         = Kernel.deref (Kernel.floats w s) l ++ es
      /\ (forall l', l <> l' ->
                     Kernel.deref (Kernel.floats w s') l'
                     = Kernel.deref (Kernel.floats w s) l').
Proof.
  induction 1 as [| m v ms es Hm _ IH]; intros s l Hp Hl Hlen.
  - exists s. cbn. rewrite app_nil_r.
    repeat split; reflexivity.
  - destruct (for_mol_body_runs m s l v Hp Hl Hm)
      as (s1 & Hrun & Hsame & Hml & Hfl).
    pose proof Hsame as (S1 & S2 & S3 & S4 & S5 & S6 & S7).
    destruct (IH s1 l)
      as (s2 & Hrun2 & Hsame2 & Hml2 & Hlen2 & Hd2 & Ho2).
    + now rewrite S1.
    + now rewrite S2.
    + rewrite Hfl, length_append_at. exact Hlen.
    + exists s2. cbn [Kernel.for_each]. unfold Kernel.bind at 1.
      rewrite Hrun, Hrun2.
      split; [reflexivity |].
      split; [eapply same_bindings_trans; eassumption |].
      split; [congruence |].
      split; [rewrite Hlen2, Hfl; apply length_append_at |].
      split.
      * rewrite Hd2, Hfl, deref_append_at by exact Hlen.
        now rewrite <- app_assoc.
      * intros l' Hl'. rewrite (Ho2 l' Hl'), Hfl.
        now apply deref_append_at_other.
Qed.

Lemma for_mol_loop_fails (pre : list (Kernel.Molecule w)) (es : list R) :
  Forall2 (fun m v => Kernel.energy_of w m = inl v) pre es ->
  forall (m : Kernel.Molecule w) (post : list (Kernel.Molecule w))
         (f : Kernel.Failure w) (s : Kernel.store w) (l : Kernel.loc),
    Kernel.energy_of w m = inr f ->
    Kernel.modules w s "psi4" = true ->
    Kernel.float_list w s "RHF_E_array" = Some l ->
    (l < length (Kernel.floats w s))%nat ->
    exists s',
      Kernel.for_each w (pre ++ m :: post) (Kernel.for_mol_body w) s
      = (s', Kernel.Raised w unit (Kernel.LibraryError w f))
      /\ Kernel.same_bindings w s s'
      /\ Kernel.molecule_lists w s' = Kernel.molecule_lists w s
      /\ length (Kernel.floats w s') = length (Kernel.floats w s)
      /\ Kernel.deref (Kernel.floats w s') l
         = Kernel.deref (Kernel.floats w s) l ++ es
      /\ (forall l', l <> l' ->
                     Kernel.deref (Kernel.floats w s') l'
                     = Kernel.deref (Kernel.floats w s) l').
Proof.
  induction 1 as [| m0 v pre es Hm0 _ IH];
    intros m post f s l Hm Hp Hl Hlen.
  - destruct (for_mol_body_fails m s f Hp Hm)
      as (s1 & Hrun & Hsame & Hml & Hfl).
    exists s1. cbn [app Kernel.for_each]. unfold Kernel.bind at 1.
    rewrite Hrun, Hfl, app_nil_r. auto 8.
  - destruct (for_mol_body_runs m0 s l v Hp Hl Hm0)
      as (s1 & Hrun & Hsame & Hml & Hfl).
    pose proof Hsame as (S1 & S2 & S3 & S4 & S5 & S6 & S7).
    destruct (IH m post f s1 l Hm)
      as (s2 & Hrun2 & Hsame2 & Hml2 & Hlen2 & Hd2 & Ho2).
    + now rewrite S1.
    + now rewrite S2.
    + rewrite Hfl, length_append_at. exact Hlen.
    + exists s2. cbn [app Kernel.for_each]. unfold Kernel.bind at 1.
      rewrite Hrun, Hrun2.
      split; [reflexivity |].
      split; [eapply same_bindings_trans; eassumption |].
      split; [congruence |].
      split; [rewrite Hlen2, Hfl; apply length_append_at |].
      split.
      * rewrite Hd2, Hfl, deref_append_at by exact Hlen.
        now rewrite <- app_assoc.
      * intros l' Hl'. rewrite (Ho2 l' Hl'), Hfl.
        now apply deref_append_at_other.
Qed.

(** The four assignments that open cell 7. *)
Lemma cell7_lists_run (rs : list R) (s : Kernel.store w) :
  exists s1,
    Kernel.cell7_lists w rs s = (s1, Kernel.Returned w unit tt)
    /\ Kernel.modules w s1 = Kernel.modules w s
    /\ Kernel.text w s1 "mol_tmpl" = Some Loader.template
    /\ Kernel.float_list w s1 "r_array" = Some (length (Kernel.floats w s))
    /\ Kernel.float_list w s1 "RHF_E_array"
       = Some (S (length (Kernel.floats w s)))
    /\ Kernel.molecule_list w s1 "molecules"
       = Some (length (Kernel.molecule_lists w s))
    /\ Kernel.floats w s1 = Kernel.floats w s ++ [rs; []]
    /\ Kernel.molecule_lists w s1 = Kernel.molecule_lists w s ++ [[]].
Proof.
  destruct s. eexists. split; [reflexivity |]. kernel_fields.
  unfold Kernel.alloc. rewrite length_app, Nat.add_1_r, <- app_assoc.
  repeat split; reflexivity.
Qed.

Lemma contents_run (s : Kernel.store w) (name : string) (l : Kernel.loc) :
  Kernel.float_list w s name = Some l ->
  Kernel.contents w name s
  = (s, Kernel.Returned w _ (Kernel.deref (Kernel.floats w s) l)).
Proof.
  intros H. unfold Kernel.contents, Kernel.bind, Kernel.load.
  now rewrite H.
Qed.

Lemma molecule_contents_run (s : Kernel.store w) (name : string)
      (l : Kernel.loc) :
  Kernel.molecule_list w s name = Some l ->
  Kernel.molecule_contents w name s
  = (s, Kernel.Returned w _ (Kernel.deref (Kernel.molecule_lists w s) l)).
Proof.
  intros H. unfold Kernel.molecule_contents, Kernel.bind, Kernel.load.
  now rewrite H.
Qed.

Lemma deref_two_new {A : Type} (h : Kernel.heap A) (a b : list A) :
  Kernel.deref (h ++ [a; b]) (length h) = a
  /\ Kernel.deref (h ++ [a; b]) (S (length h)) = b.
Proof.
  unfold Kernel.deref. split.
  - rewrite app_nth2 by lia. now rewrite Nat.sub_diag.
  - rewrite app_nth2 by lia.
    now replace (S (length h) - length h)%nat with 1%nat by lia.
Qed.

Lemma deref_one_new {A : Type} (h : Kernel.heap A) (a : list A) :
  Kernel.deref (h ++ [a]) (length h) = a.
Proof.
  apply (deref_alloc a h).
Qed.

(** The state in which the loops of cell 7 start. *)
Lemma cell7_loops_start (rs : list R) (s : Kernel.store w) :
  exists s1,
    Kernel.cell7_on w rs s = Kernel.cell7_loops w s1
    /\ Kernel.modules w s1 = Kernel.modules w s
    /\ Kernel.text w s1 "mol_tmpl" = Some Loader.template
    /\ Kernel.float_list w s1 "r_array" = Some (length (Kernel.floats w s))
    /\ Kernel.float_list w s1 "RHF_E_array"
       = Some (S (length (Kernel.floats w s)))
    /\ Kernel.molecule_list w s1 "molecules"
       = Some (length (Kernel.molecule_lists w s))
    /\ length (Kernel.floats w s1) = S (S (length (Kernel.floats w s)))
    /\ length (Kernel.molecule_lists w s1)
       = S (length (Kernel.molecule_lists w s))
    /\ Kernel.deref (Kernel.floats w s1) (length (Kernel.floats w s)) = rs
    /\ Kernel.deref (Kernel.floats w s1) (S (length (Kernel.floats w s)))
       = []
    /\ Kernel.deref (Kernel.molecule_lists w s1)
         (length (Kernel.molecule_lists w s)) = [].
Proof.
  destruct (cell7_lists_run rs s)
    as (s1 & Hrun & Hm & Ht & Hr & HE & Hms & Hfl & Hml).
  exists s1. unfold Kernel.cell7_on, Kernel.bind at 1. rewrite Hrun.
  rewrite Hfl, Hml, !length_app. cbn [length].
  destruct (deref_two_new (Kernel.floats w s) rs []) as [D1 D2].
  repeat split; auto; try lia. apply deref_one_new.
Qed.

(** Cell 7 when every call of psi4 returns. *)
Lemma cell7_on_completes (rs : list R) (ms : list (Kernel.Molecule w))
      (es : list R) (s : Kernel.store w) :
  Kernel.modules w s "psi4" = true ->
  Forall2 (fun x m => Kernel.geometry_of w x = inl m) rs ms ->
  Forall2 (fun m v => Kernel.energy_of w m = inl v) ms es ->
  let s' := fst (Kernel.cell7_on w rs s) in
  snd (Kernel.cell7_on w rs s) = Kernel.Returned w unit tt
  /\ Kernel.modules w s' = Kernel.modules w s
  /\ Kernel.float_list w s' "r_array" = Some (length (Kernel.floats w s))
  /\ Kernel.float_list w s' "RHF_E_array"
     = Some (S (length (Kernel.floats w s)))
  /\ Kernel.molecule_list w s' "molecules"
     = Some (length (Kernel.molecule_lists w s))
  /\ Kernel.deref (Kernel.floats w s') (length (Kernel.floats w s)) = rs
  /\ Kernel.deref (Kernel.floats w s') (S (length (Kernel.floats w s))) = es
  /\ Kernel.deref (Kernel.molecule_lists w s')
       (length (Kernel.molecule_lists w s)) = ms.
Proof.
  intros Hp Hg He.
  destruct (cell7_loops_start rs s)
    as (s1 & -> & Hm1 & Ht1 & Hr1 & HE1 & Hms1 & Hlf1 & Hlm1 & Dr & DE & Dm).
  destruct (for_r_loop_runs rs ms Hg s1 _ ltac:(now rewrite Hm1) Ht1 Hms1
              ltac:(lia))
    as (s2 & Hrun2 & Hsame2 & Hfl2 & Hlen2 & Hd2).
  pose proof Hsame2 as (S1 & S2 & S3 & S4 & S5 & S6 & S7).
  destruct (for_mol_loop_runs ms es He s2 (S (length (Kernel.floats w s))))
    as (s3 & Hrun3 & Hsame3 & Hml3 & Hlen3 & Hd3 & Ho3).
  { now rewrite S1, Hm1. }
  { now rewrite S2. }
  { rewrite Hfl2. lia. }
  pose proof Hsame3 as (T1 & T2 & T3 & T4 & T5 & T6 & T7).
  assert (Hrun : Kernel.cell7_loops w s1 = (s3, Kernel.Returned w unit tt)).
  { unfold Kernel.cell7_loops, Kernel.bind at 1.
    rewrite (contents_run s1 "r_array" _ Hr1), Dr.
    unfold Kernel.bind at 1. rewrite Hrun2.
    unfold Kernel.bind at 1.
    rewrite (molecule_contents_run s2 "molecules"
               (length (Kernel.molecule_lists w s)))
      by (now rewrite S3).
    now rewrite Hd2, Dm. }
  rewrite Hrun. cbn [fst snd].
  split; [reflexivity |].
  split; [now rewrite T1, S1 |].
  split; [now rewrite T2, S2 |].
  split; [now rewrite T2, S2 |].
  split; [now rewrite T3, S3 |].
  split; [rewrite Ho3 by lia; now rewrite Hfl2 |].
  split; [now rewrite Hd3, Hfl2, DE |].
  now rewrite Hml3, Hd2, Dm.
Qed.

(** Cell 7 when [psi4] is not bound. *)
Lemma cell7_on_unbound (x : R) (rs : list R) (s : Kernel.store w) :
  Kernel.modules w s "psi4" = false ->
  let s' := fst (Kernel.cell7_on w (x :: rs) s) in
  snd (Kernel.cell7_on w (x :: rs) s)
  = Kernel.Raised w unit (Kernel.NameError w "psi4")
  /\ Kernel.float_list w s' "r_array" = Some (length (Kernel.floats w s))
  /\ Kernel.float_list w s' "RHF_E_array"
     = Some (S (length (Kernel.floats w s)))
  /\ Kernel.molecule_list w s' "molecules"
     = Some (length (Kernel.molecule_lists w s))
  /\ Kernel.deref (Kernel.floats w s') (length (Kernel.floats w s))
     = x :: rs
  /\ Kernel.deref (Kernel.floats w s') (S (length (Kernel.floats w s))) = []
  /\ Kernel.deref (Kernel.molecule_lists w s')
       (length (Kernel.molecule_lists w s)) = [].
Proof.
  intros Hp.
  destruct (cell7_loops_start (x :: rs) s)
    as (s1 & -> & Hm1 & Ht1 & Hr1 & HE1 & Hms1 & Hlf1 & Hlm1 & Dr & DE & Dm).
  destruct (for_r_body_unbound x s1 ltac:(now rewrite Hm1))
    as (s2 & Hrun2 & Hsame2 & Hfl2 & Hml2).
  pose proof Hsame2 as (S1 & S2 & S3 & S4 & S5 & S6 & S7).
  assert (Hrun : Kernel.cell7_loops w s1
                 = (s2, Kernel.Raised w unit (Kernel.NameError w "psi4"))).
  { unfold Kernel.cell7_loops, Kernel.bind at 1.
    rewrite (contents_run s1 "r_array" _ Hr1), Dr.
    unfold Kernel.bind at 1. cbn [Kernel.for_each].
    unfold Kernel.bind at 1. now rewrite Hrun2. }
  rewrite Hrun. cbn [fst snd].
  rewrite S2, S3, Hfl2, Hml2. auto 8.
Qed.

(** Cell 7 when [psi4.geometry] raises. *)
Lemma cell7_on_geometry_fails (pre : list R) (x : R) (post : list R)
      (ms : list (Kernel.Molecule w)) (f : Kernel.Failure w)
      (s : Kernel.store w) :
  Kernel.modules w s "psi4" = true ->
  Forall2 (fun x m => Kernel.geometry_of w x = inl m) pre ms ->
  Kernel.geometry_of w x = inr f ->
  let s' := fst (Kernel.cell7_on w (pre ++ x :: post) s) in
  snd (Kernel.cell7_on w (pre ++ x :: post) s)
  = Kernel.Raised w unit (Kernel.LibraryError w f)
  /\ Kernel.float_list w s' "r_array" = Some (length (Kernel.floats w s))
  /\ Kernel.float_list w s' "RHF_E_array"
     = Some (S (length (Kernel.floats w s)))
  /\ Kernel.molecule_list w s' "molecules"
     = Some (length (Kernel.molecule_lists w s))
  /\ Kernel.deref (Kernel.floats w s') (length (Kernel.floats w s))
     = pre ++ x :: post
  /\ Kernel.deref (Kernel.floats w s') (S (length (Kernel.floats w s))) = []
  /\ Kernel.deref (Kernel.molecule_lists w s')
       (length (Kernel.molecule_lists w s)) = ms.
Proof.
  intros Hp Hg Hx.
  destruct (cell7_loops_start (pre ++ x :: post) s)
    as (s1 & -> & Hm1 & Ht1 & Hr1 & HE1 & Hms1 & Hlf1 & Hlm1 & Dr & DE & Dm).
  destruct (for_r_loop_fails pre ms Hg x post f s1 _ Hx
              ltac:(now rewrite Hm1) Ht1 Hms1 ltac:(lia))
    as (s2 & Hrun2 & Hsame2 & Hfl2 & Hlen2 & Hd2).
  pose proof Hsame2 as (S1 & S2 & S3 & S4 & S5 & S6 & S7).
  assert (Hrun : Kernel.cell7_loops w s1
                 = (s2, Kernel.Raised w unit (Kernel.LibraryError w f))).
  { unfold Kernel.cell7_loops, Kernel.bind at 1.
    rewrite (contents_run s1 "r_array" _ Hr1), Dr.
    unfold Kernel.bind at 1. now rewrite Hrun2. }
  rewrite Hrun. cbn [fst snd].
  rewrite S2, S3, Hfl2, Hd2, Dm. auto 8.
Qed.

(** Cell 7 when [psi4.energy] raises. *)
Lemma cell7_on_energy_fails (rs : list R)
      (mpre : list (Kernel.Molecule w)) (m : Kernel.Molecule w)
      (mpost : list (Kernel.Molecule w)) (es : list R)
      (f : Kernel.Failure w) (s : Kernel.store w) :
  Kernel.modules w s "psi4" = true ->
  Forall2 (fun x m => Kernel.geometry_of w x = inl m) rs
          (mpre ++ m :: mpost) ->
  Forall2 (fun m v => Kernel.energy_of w m = inl v) mpre es ->
  Kernel.energy_of w m = inr f ->
  let s' := fst (Kernel.cell7_on w rs s) in
  snd (Kernel.cell7_on w rs s)
  = Kernel.Raised w unit (Kernel.LibraryError w f)
  /\ Kernel.float_list w s' "r_array" = Some (length (Kernel.floats w s))
  /\ Kernel.float_list w s' "RHF_E_array"
     = Some (S (length (Kernel.floats w s)))
  /\ Kernel.molecule_list w s' "molecules"
     = Some (length (Kernel.molecule_lists w s))
  /\ Kernel.deref (Kernel.floats w s') (length (Kernel.floats w s)) = rs
  /\ Kernel.deref (Kernel.floats w s') (S (length (Kernel.floats w s))) = es
  /\ Kernel.deref (Kernel.molecule_lists w s')
       (length (Kernel.molecule_lists w s)) = mpre ++ m :: mpost.
Proof.
  intros Hp Hg He Hm.
  destruct (cell7_loops_start rs s)
    as (s1 & -> & Hm1 & Ht1 & Hr1 & HE1 & Hms1 & Hlf1 & Hlm1 & Dr & DE & Dm).
  destruct (for_r_loop_runs rs _ Hg s1 _ ltac:(now rewrite Hm1) Ht1 Hms1
              ltac:(lia))
    as (s2 & Hrun2 & Hsame2 & Hfl2 & Hlen2 & Hd2).
  pose proof Hsame2 as (S1 & S2 & S3 & S4 & S5 & S6 & S7).
  destruct (for_mol_loop_fails mpre es He m mpost f s2
              (S (length (Kernel.floats w s))) Hm)
    as (s3 & Hrun3 & Hsame3 & Hml3 & Hlen3 & Hd3 & Ho3).
  { now rewrite S1, Hm1. }
  { now rewrite S2. }
  { rewrite Hfl2. lia. }
  pose proof Hsame3 as (T1 & T2 & T3 & T4 & T5 & T6 & T7).
  assert (Hrun : Kernel.cell7_loops w s1
                 = (s3, Kernel.Raised w unit (Kernel.LibraryError w f))).
  { unfold Kernel.cell7_loops, Kernel.bind at 1.
    rewrite (contents_run s1 "r_array" _ Hr1), Dr.
    unfold Kernel.bind at 1. rewrite Hrun2.
    unfold Kernel.bind at 1.
    rewrite (molecule_contents_run s2 "molecules"
               (length (Kernel.molecule_lists w s)))
      by (now rewrite S3).
    now rewrite Hd2, Dm. }
  rewrite Hrun. cbn [fst snd].
  split; [reflexivity |].
  split; [now rewrite T2, S2 |].
  split; [now rewrite T2, S2 |].
  split; [now rewrite T3, S3 |].
  split; [rewrite Ho3 by lia; now rewrite Hfl2 |].
  split; [now rewrite Hd3, Hfl2, DE |].
  now rewrite Hml3, Hd2, Dm.
Qed.

End KernelFacts.

Section KernelClaims.

Variable w : Kernel.world.







End KernelClaims.

Lemma Forall2_map_graph {A B F : Type} (f : A -> B + F) (g : A -> B)
      (xs : list A) :
  (forall x, f x = inl (g x)) ->
  Forall2 (fun x y => f x = inl y) xs (map g xs).
Proof.
  intros H. induction xs as [| x xs IH]; simpl; constructor; auto.
Qed.



(** ** The energy loader, outcome by outcome *)

Lemma cell9_after (w : Kernel.world) (s : Kernel.store w)
      (xs ys : list R) :
  Kernel.modules w s "plt" = true ->
  Kernel.read_floats w s "r_array" = Some xs ->
  Kernel.read_floats w s "RHF_E_array" = Some ys ->
  Kernel.cell9 w s
  = (s, if (length xs =? length ys)%nat
        then Kernel.Returned w unit tt
        else Kernel.Raised w unit (Kernel.ValueError w)).
Proof.
  unfold Kernel.read_floats. intros Hp Hx Hy.
  destruct (Kernel.float_list w s "r_array") as [lx |] eqn:Lx;
    [| discriminate].
  destruct (Kernel.float_list w s "RHF_E_array") as [ly |] eqn:Ly;
    [| discriminate].
  cbn in Hx, Hy. injection Hx as <-. injection Hy as <-.
  unfold Kernel.cell9, Kernel.bind at 1, Kernel.use. rewrite Hp.
  unfold Kernel.bind at 1. rewrite (contents_run w s "r_array" lx Lx).
  unfold Kernel.bind at 1. rewrite (contents_run w s "RHF_E_array" ly Ly).
  unfold Kernel.plt_plot.
  destruct (length _ =? length _)%nat; reflexivity.
Qed.

(** X13.  Cell 7 on any list of bond lengths, from any state of the
    kernel.  The text handed to [psi4.geometry] for a bond length is the
    template with the text of the number in place of the marker.  If
    [psi4] is bound and every geometry and energy call returns, the cell
    returns with [r_array], [molecules] and [RHF_E_array] holding the bond
    lengths, the molecules and the energies, in order, and cell 9 then
    plots them when [plt] is bound.  If [psi4] is not bound and there is a
    bond length, the cell raises [NameError] with [r_array] filled and
    both other lists empty, and cell 9 then raises [ValueError].  If
    [psi4.geometry] raises at a bond length, the cell raises that error
    with the molecules built so far and no energy.  If [psi4.energy]
    raises at a molecule, the cell raises that error with all molecules
    and the energies computed so far.  Cell 6 binds [psi4] when the
    package is installed and otherwise raises [ModuleNotFoundError] and
    changes nothing. *)
Theorem cell7_outcomes (w : Kernel.world) (rs : list R)
        (s : Kernel.store w) :
  let out := snd (Kernel.cell7_on w rs s) in
  let s' := fst (Kernel.cell7_on w rs s) in
  (forall x,
      Kernel.zmatrix w x
      = ("H" ++ String (Ascii.ascii_of_nat 10) "F 1 "
             ++ Kernel.py_str w x)%string)
  /\ (forall ms es,
         Kernel.modules w s "psi4" = true ->
         Forall2 (fun x m => Kernel.geometry_of w x = inl m) rs ms ->
         Forall2 (fun m v => Kernel.energy_of w m = inl v) ms es ->
         out = Kernel.Returned w unit tt
         /\ Kernel.read_floats w s' "r_array" = Some rs
         /\ Kernel.read_molecules w s' "molecules" = Some ms
         /\ Kernel.read_floats w s' "RHF_E_array" = Some es
         /\ (Kernel.modules w s "plt" = true ->
             Kernel.cell9 w s' = (s', Kernel.Returned w unit tt)))
  /\ (rs <> [] ->
      Kernel.modules w s "psi4" = false ->
      out = Kernel.Raised w unit (Kernel.NameError w "psi4")
      /\ Kernel.read_floats w s' "r_array" = Some rs
      /\ Kernel.read_molecules w s' "molecules" = Some []
      /\ Kernel.read_floats w s' "RHF_E_array" = Some []
      /\ (Kernel.modules w s' "plt" = true ->
          Kernel.cell9 w s'
          = (s', Kernel.Raised w unit (Kernel.ValueError w))))
  /\ (forall pre x post ms f,
         rs = pre ++ x :: post ->
         Kernel.modules w s "psi4" = true ->
         Forall2 (fun x m => Kernel.geometry_of w x = inl m) pre ms ->
         Kernel.geometry_of w x = inr f ->
         out = Kernel.Raised w unit (Kernel.LibraryError w f)
         /\ Kernel.read_floats w s' "r_array" = Some rs
         /\ Kernel.read_molecules w s' "molecules" = Some ms
         /\ Kernel.read_floats w s' "RHF_E_array" = Some [])
  /\ (forall mpre m mpost es f,
         Kernel.modules w s "psi4" = true ->
         Forall2 (fun x m => Kernel.geometry_of w x = inl m) rs
                 (mpre ++ m :: mpost) ->
         Forall2 (fun m v => Kernel.energy_of w m = inl v) mpre es ->
         Kernel.energy_of w m = inr f ->
         out = Kernel.Raised w unit (Kernel.LibraryError w f)
         /\ Kernel.read_floats w s' "r_array" = Some rs
         /\ Kernel.read_molecules w s' "molecules" = Some (mpre ++ m :: mpost)
         /\ Kernel.read_floats w s' "RHF_E_array" = Some es)
  /\ (Kernel.installed w "psi4" = true ->
      snd (Kernel.cell6 w s) = Kernel.Returned w unit tt
      /\ Kernel.modules w (fst (Kernel.cell6 w s)) "psi4" = true)
  /\ (Kernel.installed w "psi4" = false ->
      Kernel.cell6 w s
      = (s, Kernel.Raised w unit (Kernel.ModuleNotFoundError w "psi4"))).
Proof.
  cbv zeta. unfold Kernel.read_floats, Kernel.read_molecules.
  split; [intros x; apply template_filled |].
  split.
  { intros ms es Hp Hg He.
    destruct (cell7_on_completes w rs ms es s Hp Hg He)
      as (Ho & Hm & Hr & HE & HM & Dr & DE & DM).
    rewrite Ho, Hr, HE, HM. cbn [option_map]. rewrite Dr, DE, DM.
    repeat (split; [reflexivity |]).
    intros Hplt.
    rewrite (cell9_after w _ rs es).
    - rewrite (Forall2_length Hg), (Forall2_length He), Nat.eqb_refl.
      reflexivity.
    - now rewrite Hm.
    - unfold Kernel.read_floats. rewrite Hr. cbn [option_map]. now rewrite Dr.
    - unfold Kernel.read_floats. rewrite HE. cbn [option_map]. now rewrite DE. }
  split.
  { intros Hne Hp. destruct rs as [| x rs]; [contradiction |].
    destruct (cell7_on_unbound w x rs s Hp)
      as (Ho & Hr & HE & HM & Dr & DE & DM).
    rewrite Ho, Hr, HE, HM. cbn [option_map]. rewrite Dr, DE, DM.
    repeat (split; [reflexivity |]).
    intros Hplt.
    rewrite (cell9_after w _ (x :: rs) []).
    - reflexivity.
    - exact Hplt.
    - unfold Kernel.read_floats. rewrite Hr. cbn [option_map]. now rewrite Dr.
    - unfold Kernel.read_floats. rewrite HE. cbn [option_map]. now rewrite DE. }
  split.
  { intros pre x post ms f -> Hp Hg Hx.
    destruct (cell7_on_geometry_fails w pre x post ms f s Hp Hg Hx)
      as (Ho & Hr & HE & HM & Dr & DE & DM).
    rewrite Ho, Hr, HE, HM. cbn [option_map]. rewrite Dr, DE, DM.
    repeat split. }
  split.
  { intros mpre m mpost es f Hp Hg He Hm.
    destruct (cell7_on_energy_fails w rs mpre m mpost es f s Hp Hg He Hm)
      as (Ho & Hr & HE & HM & Dr & DE & DM).
    rewrite Ho, Hr, HE, HM. cbn [option_map]. rewrite Dr, DE, DM.
    repeat split. }
  unfold Kernel.cell6, Kernel.import_as.
  split; intros ->; [| reflexivity].
  split; [reflexivity |].
  destruct s. reflexivity.
Qed.

Lemma cell7_outcomes_witness :
  snd (Kernel.code Examples.world Kernel.Cell7 (Kernel.fresh Examples.world))
  = Kernel.Raised Examples.world unit
      (Kernel.NameError Examples.world "psi4")
  /\ snd (Kernel.code Examples.world Kernel.Cell7 Examples.psi4_imported)
     = Kernel.Returned Examples.world unit tt
  /\ Kernel.read_floats Examples.world
       (Kernel.exec Examples.world Kernel.Cell7 Examples.psi4_imported)
       "r_array"
     = Some Loader.bond_lengths
  /\ snd (Kernel.code Examples.world_without_energies Kernel.Cell7
            (Kernel.exec Examples.world_without_energies Kernel.Cell6
               (Kernel.fresh Examples.world_without_energies)))
     = Kernel.Raised Examples.world_without_energies unit
         (Kernel.LibraryError Examples.world_without_energies
            "not converged"%string).
Proof.
  split.
  { apply (cell7_outcomes Examples.world Loader.bond_lengths
             (Kernel.fresh Examples.world)).
    - discriminate.
    - reflexivity. }
  pose proof (cell7_outcomes Examples.world Loader.bond_lengths
                Examples.psi4_imported) as H.
  cbv zeta in H. destruct H as (_ & H & _).
  destruct (H (map (Kernel.zmatrix Examples.world) Loader.bond_lengths)
              (map (fun x => INR (String.length
                                    (Kernel.zmatrix Examples.world x)))
                   Loader.bond_lengths))
    as (Ho & Hr & _).
  { reflexivity. }
  { apply Forall2_map_graph. reflexivity. }
  { rewrite <- (map_map (Kernel.zmatrix Examples.world)
                        (fun m => INR (String.length m))).
    apply Forall2_map_graph. reflexivity. }
  split; [exact Ho |].
  split; [exact Hr |].
  pose proof (cell7_outcomes Examples.world_without_energies
                Loader.bond_lengths
                (Kernel.exec Examples.world_without_energies Kernel.Cell6
                   (Kernel.fresh Examples.world_without_energies))) as G.
  cbv zeta in G. destruct G as (_ & _ & _ & _ & G & _).
  destruct (G [] (Kernel.zmatrix Examples.world_without_energies 0.5)
              (map (Kernel.zmatrix Examples.world_without_energies)
                   (tl Loader.bond_lengths))
              [] "not converged"%string)
    as (Go & _).
  { reflexivity. }
  { apply (Forall2_map_graph
             (Kernel.geometry_of Examples.world_without_energies)
             (Kernel.zmatrix Examples.world_without_energies)
             Loader.bond_lengths).
    reflexivity. }
  { constructor. }
  { reflexivity. }
  exact Go.
Defined.

(** ** Evaluation in binary64 *)

Import PrimFloat SpecFloat FloatOps FloatAxioms.

(** *** The order of binary64 values

    Comparison of floats is specified on their decoded form
    ([SpecFloat.SFcompare]); there it is a lexicographic comparison of
    sign, exponent and mantissa, hence a total preorder away from NaN. *)

Lemma SFcompare_flip (x y : spec_float) :
  SFcompare y x = option_map CompOpp (SFcompare x y).
Proof.
  destruct x as [sx | sx | | sx mx ex], y as [sy | sy | | sy my ey];
    simpl; try reflexivity;
    try (destruct sx; reflexivity); try (destruct sy; reflexivity);
    try (destruct sx, sy; reflexivity).
  change (Pos.compare_cont Eq) with Pos.compare.
  rewrite (Z.compare_antisym ex ey), (Pos.compare_antisym mx my).
  destruct sx, sy; simpl; try reflexivity;
    destruct (ex ?= ey)%Z; simpl; try reflexivity.
Qed.

Lemma SFcompare_trans (x y z : spec_float) (c1 c2 : comparison) :
  SFcompare x y = Some c1 -> SFcompare y z = Some c2 ->
  c1 <> Gt -> c2 <> Gt ->
  SFcompare x z = Some (match c1, c2 with Eq, Eq => Eq | _, _ => Lt end).
Proof.
  destruct x as [sx | sx | | sx mx ex], y as [sy | sy | | sy my ey],
    z as [sz | sz | | sz mz ez]; simpl; try discriminate;
    repeat match goal with b : bool |- _ => destruct b end;
    change (Pos.compare_cont Eq) with Pos.compare;
    split_compare; simpl;
    intros Exy Eyz N1 N2; injection Exy as <-; injection Eyz as <-;
    try congruence; try reflexivity; try lia.
Qed.

Lemma SFcompare_defined (x y : spec_float) :
  SFcompare x x = Some Eq -> SFcompare y y = Some Eq ->
  exists c, SFcompare x y = Some c.
Proof.
  destruct x, y; simpl; intros Hx Hy; try discriminate; eauto.
Qed.

Lemma b64_not_nan_compare (x : float) :
  is_nan x = false -> SFcompare (Prim2SF x) (Prim2SF x) = Some Eq.
Proof.
  unfold is_nan. rewrite eqb_spec. unfold SFeqb.
  destruct (SFcompare (Prim2SF x) (Prim2SF x)) as [[| |] |];
    simpl; congruence.
Qed.

Lemma b64_leb_false_ltb (x y : float) :
  is_nan x = false -> is_nan y = false ->
  (x <=? y)%float = false -> (y <? x)%float = true.
Proof.
  intros Hx Hy. rewrite leb_spec, ltb_spec. unfold SFleb, SFltb.
  rewrite (SFcompare_flip (Prim2SF x) (Prim2SF y)).
  destruct (SFcompare_defined _ _ (b64_not_nan_compare x Hx) (b64_not_nan_compare y Hy))
    as [c ->].
  destruct c; simpl; congruence.
Qed.

Lemma b64_ltb_leb_trans (x y z : float) :
  (x <? y)%float = true -> (y <=? z)%float = true -> (x <? z)%float = true.
Proof.
  rewrite !ltb_spec, leb_spec. unfold SFleb, SFltb.
  destruct (SFcompare (Prim2SF x) (Prim2SF y)) as [c1 |] eqn:E1;
    [| discriminate].
  destruct (SFcompare (Prim2SF y) (Prim2SF z)) as [c2 |] eqn:E2;
    [| discriminate].
  intros H1 H2.
  rewrite (SFcompare_trans _ _ _ c1 c2 E1 E2);
    destruct c1, c2; try discriminate; reflexivity.
Qed.

Lemma b64_ltb_leb (x y : float) :
  (x <? y)%float = true -> (x <=? y)%float = true.
Proof.
  rewrite ltb_spec, leb_spec. unfold SFleb, SFltb.
  destruct (SFcompare (Prim2SF x) (Prim2SF y)) as [[| |] |]; congruence.
Qed.

Lemma b64_leb_refl (x : float) : is_nan x = false -> (x <=? x)%float = true.
Proof.
  intros Hx. rewrite leb_spec. unfold SFleb.
  now rewrite (b64_not_nan_compare x Hx).
Qed.

Lemma b64_ltb_not_eqb (x y : float) :
  (x <? y)%float = true -> (y =? x)%float = false.
Proof.
  rewrite ltb_spec, eqb_spec. unfold SFeqb, SFltb.
  rewrite (SFcompare_flip (Prim2SF x) (Prim2SF y)).
  destruct (SFcompare (Prim2SF x) (Prim2SF y)) as [[| |] |];
    simpl; congruence.
Qed.

Lemma b64_ltb_trans (x y z : float) :
  (x <? y)%float = true -> (y <? z)%float = true -> (x <? z)%float = true.
Proof.
  intros H1 H2. apply (b64_ltb_leb_trans x y z H1). now apply b64_ltb_leb.
Qed.

(** *** The scan of [np.argmin] on floats *)

Lemma b64_argmin_from_spec (a : list float) :
  forall (pre : list float) (mp : float) (min_ind : nat),
    forallb (fun x => negb (is_nan x)) a = true ->
    (min_ind < length pre)%nat ->
    nth min_ind pre 0%float = mp ->
    is_nan mp = false ->
    (forall j, (j < length pre)%nat -> (mp <=? nth j pre 0)%float = true) ->
    (forall j, (j < min_ind)%nat -> (mp <? nth j pre 0)%float = true) ->
    let k := Binary64.argmin_from a (length pre) mp min_ind in
    (k < length (pre ++ a))%nat
    /\ (forall j, (j < length (pre ++ a))%nat ->
                  (nth k (pre ++ a) 0 <=? nth j (pre ++ a) 0)%float = true)
    /\ (forall j, (j < k)%nat ->
                  (nth k (pre ++ a) 0 <? nth j (pre ++ a) 0)%float = true).
Proof.
  induction a as [| x a IH];
    intros pre mp min_ind Hnan Hlt Hmp Hmpn Hall Hbefore; simpl.
  - rewrite app_nil_r. subst mp. repeat split; auto.
  - simpl in Hnan. apply andb_true_iff in Hnan as [Hx Hnan].
    apply negb_true_iff in Hx.
    assert (Hlen : length (pre ++ [x]) = S (length pre))
      by (rewrite length_app; simpl; lia).
    replace (pre ++ x :: a) with ((pre ++ [x]) ++ a)
      by (now rewrite <- app_assoc).
    destruct (mp <=? x)%float eqn:Hcmp; simpl.
    + rewrite <- Hlen. apply IH; auto.
      * lia.
      * rewrite app_nth1 by lia. exact Hmp.
      * intros j Hj. rewrite Hlen in Hj.
        destruct (Nat.eq_dec j (length pre)) as [-> | Hne].
        -- rewrite app_nth2, Nat.sub_diag by lia. exact Hcmp.
        -- rewrite app_nth1 by lia. apply Hall. lia.
      * intros j Hj. rewrite app_nth1 by lia. now apply Hbefore.
    + rewrite Hx.
      assert (Hxmp : (x <? mp)%float = true)
        by (now apply b64_leb_false_ltb).
      rewrite <- Hlen. apply IH; auto.
      * lia.
      * rewrite app_nth2, Nat.sub_diag by lia. reflexivity.
      * intros j Hj. rewrite Hlen in Hj.
        destruct (Nat.eq_dec j (length pre)) as [-> | Hne].
        -- rewrite app_nth2, Nat.sub_diag by lia. simpl.
           now apply b64_leb_refl.
        -- rewrite app_nth1 by lia. apply b64_ltb_leb.
           apply (b64_ltb_leb_trans x mp); [exact Hxmp | apply Hall; lia].
      * intros j Hj. rewrite app_nth1 by lia.
        apply (b64_ltb_leb_trans x mp); [exact Hxmp | apply Hall; lia].
Qed.

Lemma b64_argmin_spec (a : list float) :
  a <> [] ->
  forallb (fun x => negb (is_nan x)) a = true ->
  exists k,
    Binary64.argmin a = Some k
    /\ (k < length a)%nat
    /\ (forall j, (j < length a)%nat ->
                  (nth k a 0 <=? nth j a 0)%float = true)
    /\ (forall j, (j < k)%nat -> (nth k a 0 <? nth j a 0)%float = true).
Proof.
  destruct a as [| x a]; [congruence |]. intros _ Hnan.
  simpl in Hnan. apply andb_true_iff in Hnan as [Hx Hnan].
  apply negb_true_iff in Hx.
  simpl. rewrite Hx. eexists. split; [reflexivity |].
  apply (b64_argmin_from_spec a [x] x 0%nat); simpl; auto; try lia.
  intros j Hj. assert (j = 0%nat) as -> by lia. simpl. now apply b64_leb_refl.
Qed.

Lemma increasing_nth (l : list float) :
  Binary64.increasing l = true ->
  forall i j, (i < j)%nat -> (j < length l)%nat ->
              (nth i l 0 <? nth j l 0)%float = true.
Proof.
  induction l as [| x l IH]; intros Hinc i j Hij Hj; simpl in Hj; [lia |].
  destruct l as [| y t]; [simpl in Hj; lia |].
  simpl in Hinc. apply andb_true_iff in Hinc as [Hxy Hinc].
  destruct j as [| j]; [lia |].
  destruct i as [| i].
  - change (nth 0 (x :: y :: t) 0%float) with x.
    change (nth (S j) (x :: y :: t) 0%float) with (nth j (y :: t) 0%float).
    destruct j as [| j]; [exact Hxy |].
    apply (b64_ltb_trans x y); [exact Hxy |].
    change y with (nth 0 (y :: t) 0%float) at 1.
    apply IH; [exact Hinc | lia | simpl in *; lia].
  - change (nth (S i) (x :: y :: t) 0%float) with (nth i (y :: t) 0%float).
    change (nth (S j) (x :: y :: t) 0%float) with (nth j (y :: t) 0%float).
    apply IH; [exact Hinc | lia | simpl in *; lia].
Qed.

(** The scan returns an index it has visited. *)
Lemma b64_argmin_from_bound (a : list float) :
  forall (i : nat) (mp : float) (min_ind : nat),
    (min_ind < i)%nat ->
    (Binary64.argmin_from a i mp min_ind < i + length a)%nat.
Proof.
  induction a as [| x a IH]; intros i mp min_ind Hlt; simpl.
  - lia.
  - destruct (negb (mp <=? x)%float).
    + destruct (is_nan x); [lia |].
      specialize (IH (S i) x i ltac:(lia)). lia.
    + specialize (IH (S i) mp min_ind ltac:(lia)). lia.
Qed.

Lemma b64_argmin_bound (a : list float) (i : nat) :
  Binary64.argmin a = Some i -> (i < length a)%nat.
Proof.
  destruct a as [| x a]; simpl; [discriminate |].
  destruct (is_nan x); intros [= <-]; [lia |].
  pose proof (b64_argmin_from_bound a 1 x 0 ltac:(lia)). lia.
Qed.

(** The grid as Python computes it. *)
Lemma b64_r_fine_checked :
  length Binary64.r_fine = 200%nat
  /\ nth_error Binary64.r_fine 0 = Some Binary64.r_min
  /\ nth_error Binary64.r_fine 199 = Some Binary64.r_max
  /\ Binary64.increasing Binary64.r_fine = true
  /\ forallb (Binary64.within Binary64.r_min Binary64.r_max) Binary64.r_fine
     = true.
Proof.
  vm_compute. repeat split; reflexivity.
Qed.

Lemma b64_r_fine_evenly :
  Binary64.evenly 1e-15 ((Binary64.r_max - Binary64.r_min) / 199)%float
    Binary64.r_fine = true.
Proof.
  vm_compute. reflexivity.
Qed.

Lemma b64_r_fine_no_nan : Binary64.no_nan Binary64.r_fine = true.
Proof.
  vm_compute. reflexivity.
Qed.

(** The Extremum Locator on the fine grid, in binary64, for energies
    none of which is NaN. *)
Lemma b64_locate_first_minimum (E_fine : list float) :
  length E_fine = length Binary64.r_fine ->
  Binary64.no_nan E_fine = true ->
  exists (i : nat) (Req : float),
    Binary64.argmin E_fine = Some i
    /\ nth_error Binary64.r_fine i = Some Req
    /\ Binary64.locate Binary64.r_fine E_fine = Some Req
    /\ (forall j, (j < length E_fine)%nat ->
                  (nth i E_fine 0 <=? nth j E_fine 0)%float = true)
    /\ (forall j, (j < length E_fine)%nat ->
                  (nth j E_fine 0 =? nth i E_fine 0)%float = true ->
                  (i <= j)%nat
                  /\ (Req <=? nth j Binary64.r_fine 0)%float = true).
Proof.
  intros Hlen Hnan.
  destruct b64_r_fine_checked as (Hgrid & _ & _ & Hinc & _).
  assert (Hne : E_fine <> []).
  { intros ->. rewrite Hgrid in Hlen. discriminate. }
  destruct (b64_argmin_spec E_fine Hne Hnan)
    as [i (Hidx & Hlt & Hmin & Hfirst)].
  assert (Hreq : nth_error Binary64.r_fine i
                 = Some (nth i Binary64.r_fine 0%float))
    by (apply nth_error_nth'; lia).
  exists i, (nth i Binary64.r_fine 0%float).
  split; [exact Hidx |].
  split; [exact Hreq |].
  split; [unfold Binary64.locate; now rewrite Hidx |].
  split; [exact Hmin |].
  intros j Hj Htie.
  assert (Hij : (i <= j)%nat).
  { destruct (le_lt_dec i j) as [Hle | Hgt]; [exact Hle |].
    rewrite (b64_ltb_not_eqb _ _ (Hfirst j Hgt)) in Htie. discriminate. }
  split; [exact Hij |].
  destruct (Nat.eq_dec i j) as [-> | Hneq].
  - apply b64_leb_refl.
    pose proof b64_r_fine_no_nan as Hall. unfold Binary64.no_nan in Hall.
    rewrite forallb_forall in Hall.
    apply negb_true_iff. apply Hall. apply nth_In. lia.
  - apply b64_ltb_leb. apply increasing_nth; [exact Hinc | lia | lia].
Qed.

Lemma b64_locate_in_grid (E_spline : float -> float) :
  exists Req,
    Binary64.locate Binary64.r_fine
      (Binary64.E_fine E_spline Binary64.r_fine) = Some Req
    /\ In Req Binary64.r_fine
    /\ Binary64.within Binary64.r_min Binary64.r_max Req = true.
Proof.
  destruct b64_r_fine_checked as (Hlen & _ & _ & _ & Hall).
  unfold Binary64.locate.
  destruct (Binary64.argmin (Binary64.E_fine E_spline Binary64.r_fine))
    as [i |] eqn:Hi.
  - apply b64_argmin_bound in Hi.
    unfold Binary64.E_fine in Hi. rewrite length_map in Hi.
    destruct (nth_error Binary64.r_fine i) as [r |] eqn:Hr.
    + exists r. apply nth_error_In in Hr.
      split; [reflexivity |]. split; [exact Hr |].
      rewrite forallb_forall in Hall. now apply Hall.
    + apply nth_error_None in Hr. lia.
  - exfalso. unfold Binary64.E_fine in Hi.
    destruct (map E_spline Binary64.r_fine) eqn:Hm.
    + apply (f_equal (@length float)) in Hm.
      rewrite length_map, Hlen in Hm. discriminate.
    + simpl in Hi. destruct (is_nan f); discriminate.
Qed.

(** C9.  The grid of cell 13 has exactly 200 points.  In exact arithmetic
    the i-th is [0.5*1.89 + i * (2.3*1.89 - 0.5*1.89)/199]: equally
    spaced, strictly increasing, from [0.5*1.89] to [2.3*1.89] inclusive;
    and for every energy spline the equilibrium separation [Req] of cell
    18 is one of these points, so it lies in that closed interval.  The
    same holds of the grid as computed in binary64: 200 strictly
    increasing floats from [0.5*1.89] to [2.3*1.89], consecutive ones
    apart by [(2.3*1.89 - 0.5*1.89)/199] to within 1e-15, and [Req] one
    of them for every spline, NaN energies included. *)
Theorem r_fine_grid_contains_Req :
  (length Analysis.r_fine = 200%nat
   /\ (forall i, (i < 200)%nat ->
         nth_error Analysis.r_fine i
         = Some (0.5 * 1.89 + INR i * ((2.3 * 1.89 - 0.5 * 1.89) / 199)))
   /\ nth_error Analysis.r_fine 0%nat = Some (0.5 * 1.89)
   /\ nth_error Analysis.r_fine 199%nat = Some (2.3 * 1.89)
   /\ (forall i j, (i < j)%nat -> (j < 200)%nat ->
         nth i Analysis.r_fine 0 < nth j Analysis.r_fine 0)
   /\ (forall x, In x Analysis.r_fine -> 0.5 * 1.89 <= x <= 2.3 * 1.89)
   /\ (forall E_spline : R -> R,
         exists Req,
           Analysis.locate Analysis.r_fine
             (Analysis.E_fine E_spline Analysis.r_fine) = Some Req
           /\ In Req Analysis.r_fine
           /\ 0.5 * 1.89 <= Req <= 2.3 * 1.89))
  /\ (length Binary64.r_fine = 200%nat
      /\ nth_error Binary64.r_fine 0 = Some (0.5 * 1.89)%float
      /\ nth_error Binary64.r_fine 199 = Some (2.3 * 1.89)%float
      /\ Binary64.increasing Binary64.r_fine = true
      /\ Binary64.evenly 1e-15 ((2.3 * 1.89 - 0.5 * 1.89) / 199)%float
           Binary64.r_fine = true
      /\ forallb (Binary64.within (0.5 * 1.89)%float (2.3 * 1.89)%float)
                 Binary64.r_fine = true
      /\ (forall E_spline : float -> float,
            exists Req,
              Binary64.locate Binary64.r_fine
                (Binary64.E_fine E_spline Binary64.r_fine) = Some Req
              /\ In Req Binary64.r_fine
              /\ Binary64.within (0.5 * 1.89)%float (2.3 * 1.89)%float Req
                 = true)).
Proof.
  split.
  - split; [exact r_fine_length |].
    split; [exact r_fine_nth_error |].
    split; [rewrite r_fine_nth_error by lia; f_equal; simpl; lra |].
    split.
    { rewrite r_fine_nth_error by lia. f_equal.
      replace (INR 199) with 199 by (rewrite INR_IZR_INZ; reflexivity).
      lra. }
    split; [intros i j Hij Hj; now apply r_fine_increasing |].
    split; [exact r_fine_In_bounds | exact locate_in_grid].
  - destruct b64_r_fine_checked as (H1 & H2 & H3 & H4 & H5).
    split; [exact H1 |].
    split; [exact H2 |].
    split; [exact H3 |].
    split; [exact H4 |].
    split; [exact b64_r_fine_evenly |].
    split; [exact H5 | exact b64_locate_in_grid].
Qed.

(** ** The reduced mass *)

(** C4, as stated, fails: with the notebook's masses the formula gives
    more than 1744, so the value does not agree with 1743.0 to one
    decimal place; it is off by more than a whole unit. *)
Lemma mu_is_not_1743 :
  ~ (Analysis.mu = (1836 * 34883) / (1836 + 34883)
     /\ Analysis.to_one_decimal Analysis.mu 1743.0).
Proof.
  unfold Analysis.to_one_decimal, Analysis.mu, Analysis.reduced_mass,
    Analysis.mH, Analysis.mF.
  intros [_ H].
  assert (Hle : (1836 * 34883) / (1836 + 34883) - 1743.0 <= 0.05).
  { eapply Rle_trans; [apply Rle_abs | exact H]. }
  lra.
Qed.

(** C4, amended.  With m_H = 1836 and m_F = 34883 the reduced mass
    (m_H * m_F) / (m_H + m_F) is 64045188/36719, which is 1744.2 to one
    decimal place and exceeds 1743.0 by more than one atomic unit; in
    binary64 the same expression evaluates to 1744.1974999319154. *)
Theorem mu_is_1744_2 :
  Analysis.mu = (1836 * 34883) / (1836 + 34883)
  /\ Analysis.mu = 64045188 / 36719
  /\ Analysis.to_one_decimal Analysis.mu 1744.2
  /\ 1 < Analysis.mu - 1743.0
  /\ Binary64.mu = (1836 * 34883 / (1836 + 34883))%float
  /\ Binary64.mu = 1744.1974999319154%float.
Proof.
  unfold Analysis.to_one_decimal, Analysis.mu, Analysis.reduced_mass,
    Analysis.mH, Analysis.mF.
  split; [lra |].
  split; [lra |].
  split; [apply Rabs_le; lra |].
  split; [lra |].
  split; reflexivity.
Qed.

(** ** The vibrational energy in binary64 *)

(** C10, as stated, fails in the arithmetic the notebook runs on.  For
    k = 3 and mu = 1, with [nu] computed as (1 / (2 pi)) * sqrt (k / mu),
    cell 21's [2 * np.pi * nu] is 1.7320508075688774, whereas
    sqrt (k / mu) is 1.7320508075688772; computing [nu] as
    sqrt (k / mu) / (2 pi) instead gives the same discrepancy. *)
Lemma E_vib_au_is_not_sqrt_in_binary64 :
  (0 <? 3)%float = true
  /\ (0 <? 1)%float = true
  /\ Binary64.harmonic_nu 3 1 = (1 / (2 * Binary64.np_pi) * sqrt (3 / 1))%float
  /\ Binary64.E_vib_au (Binary64.harmonic_nu 3 1)
     = 1.7320508075688774%float
  /\ sqrt (3 / 1)%float = 1.7320508075688772%float
  /\ (Binary64.E_vib_au (Binary64.harmonic_nu 3 1) =? sqrt (3 / 1))%float
     = false
  /\ (Binary64.E_vib_au (sqrt (3 / 1) / (2 * Binary64.np_pi))
      =? sqrt (3 / 1))%float = false.
Proof.
  vm_compute. repeat split; reflexivity.
Qed.

(** For a negative force constant the square root is NaN, and so is the
    vibrational energy computed from it: a value, not an exception. *)
Lemma negative_curvature_gives_nan :
  is_nan (Binary64.harmonic_nu (-1) Binary64.mu) = true
  /\ is_nan (Binary64.E_vib_au (Binary64.harmonic_nu (-1) Binary64.mu))
     = true.
Proof.
  vm_compute. split; reflexivity.
Qed.

(** ** The Extremum Locator *)

(** C3.  Whatever 200 energies stand on the fine grid, the Extremum
    Locator of cell 18 ([Req_idx = np.argmin(E_fine)],
    [Req = r_fine[Req_idx]]) returns the grid point at index [Req_idx],
    the entry of [r_fine] at that position, and the energy at that index
    is least; among the grid points that carry exactly that least energy
    it returns the first, which is the one of lowest r.  This holds in
    exact arithmetic, and in binary64 for energies none of which is
    NaN. *)
Theorem Req_is_first_grid_minimum :
  (forall E_fine : list R,
      length E_fine = length Analysis.r_fine ->
      exists (i : nat) (Req : R),
        Analysis.Req_idx E_fine = Some i
        /\ Analysis.Req Analysis.r_fine i = Some Req
        /\ nth_error Analysis.r_fine i = Some Req
        /\ Analysis.locate Analysis.r_fine E_fine = Some Req
        /\ (forall j, (j < length E_fine)%nat ->
                      nth i E_fine 0 <= nth j E_fine 0)
        /\ (forall j, (j < length E_fine)%nat ->
                      nth j E_fine 0 = nth i E_fine 0 ->
                      (i <= j)%nat /\ Req <= nth j Analysis.r_fine 0))
  /\ (forall E_fine : list float,
        length E_fine = length Binary64.r_fine ->
        Binary64.no_nan E_fine = true ->
        exists (i : nat) (Req : float),
          Binary64.argmin E_fine = Some i
          /\ nth_error Binary64.r_fine i = Some Req
          /\ Binary64.locate Binary64.r_fine E_fine = Some Req
          /\ (forall j, (j < length E_fine)%nat ->
                        (nth i E_fine 0 <=? nth j E_fine 0)%float = true)
          /\ (forall j, (j < length E_fine)%nat ->
                        (nth j E_fine 0 =? nth i E_fine 0)%float = true ->
                        (i <= j)%nat
                        /\ (Req <=? nth j Binary64.r_fine 0)%float = true)).
Proof.
  split; [exact locate_first_minimum | exact b64_locate_first_minimum].
Qed.

Lemma Req_is_first_grid_minimum_witness :
  (exists (i : nat) (Req : R),
      Analysis.Req_idx Samples.E_well = Some i
      /\ Analysis.Req Analysis.r_fine i = Some Req
      /\ nth_error Analysis.r_fine i = Some Req
      /\ Analysis.locate Analysis.r_fine Samples.E_well = Some Req
      /\ (forall j, (j < length Samples.E_well)%nat ->
                    nth i Samples.E_well 0 <= nth j Samples.E_well 0)
      /\ (forall j, (j < length Samples.E_well)%nat ->
                    nth j Samples.E_well 0 = nth i Samples.E_well 0 ->
                    (i <= j)%nat /\ Req <= nth j Analysis.r_fine 0))
  /\ (exists (i : nat) (Req : float),
        Binary64.argmin Samples64.E_well = Some i
        /\ nth_error Binary64.r_fine i = Some Req
        /\ Binary64.locate Binary64.r_fine Samples64.E_well = Some Req
        /\ (forall j, (j < length Samples64.E_well)%nat ->
                      (nth i Samples64.E_well 0 <=? nth j Samples64.E_well 0)%float
                      = true)
        /\ (forall j, (j < length Samples64.E_well)%nat ->
                      (nth j Samples64.E_well 0 =? nth i Samples64.E_well 0)%float
                      = true ->
                      (i <= j)%nat
                      /\ (Req <=? nth j Binary64.r_fine 0)%float = true)).
Proof.
  split.
  - apply (proj1 Req_is_first_grid_minimum Samples.E_well).
    reflexivity.
  - apply (proj2 Req_is_first_grid_minimum Samples64.E_well).
    + reflexivity.
    + vm_compute. reflexivity.
Defined.

(** ** NaN energies and the printed bond length *)

Lemma SFcompare_refl (x : spec_float) :
  x = S754_nan \/ SFcompare x x = Some Eq.
Proof.
  destruct x as [s | s | | s m e]; simpl; auto; right.
  - now destruct s.
  - change (Pos.compare_cont Eq) with Pos.compare.
    rewrite BinInt.Z.compare_refl, BinPos.Pos.compare_refl. now destruct s.
Qed.

Lemma b64_leb_nan (mp x : float) :
  is_nan x = true -> (mp <=? x)%float = false.
Proof.
  unfold is_nan. rewrite leb_spec, eqb_spec. unfold SFleb, SFeqb.
  destruct (SFcompare_refl (Prim2SF x)) as [-> | ->]; [| discriminate].
  intros _. now destruct (Prim2SF mp).
Qed.

Lemma b64_argmin_from_first_nan (pre : list float) :
  forall (x : float) (post : list float) (i : nat) (mp : float) (min_ind : nat),
    Binary64.no_nan pre = true -> is_nan x = true ->
    Binary64.argmin_from (pre ++ x :: post) i mp min_ind
    = (i + length pre)%nat.
Proof.
  induction pre as [| y pre IH]; intros x post i mp min_ind Hpre Hx; simpl.
  - rewrite (b64_leb_nan mp x Hx), Hx. simpl. lia.
  - unfold Binary64.no_nan in Hpre. simpl in Hpre.
    apply andb_true_iff in Hpre as [Hy Hpre].
    apply negb_true_iff in Hy. rewrite Hy.
    destruct (negb (mp <=? y)%float);
      rewrite (IH x post _ _ _ Hpre Hx); lia.
Qed.

(** X14.  With a NaN among the energies [np.argmin] does not find a
    minimum: it returns the position of the first NaN, whatever the other
    energies are, so cell 18 takes as [Req] the grid point at which the
    spline first gave NaN. *)
Theorem argmin_returns_the_first_nan (r pre post : list float) (x : float) :
  Binary64.no_nan pre = true -> is_nan x = true ->
  Binary64.argmin (pre ++ x :: post) = Some (length pre)
  /\ Binary64.locate r (pre ++ x :: post) = nth_error r (length pre).
Proof.
  intros Hpre Hx.
  assert (H : Binary64.argmin (pre ++ x :: post) = Some (length pre)).
  { destruct pre as [| y pre]; simpl.
    - now rewrite Hx.
    - unfold Binary64.no_nan in Hpre. simpl in Hpre.
      apply andb_true_iff in Hpre as [Hy Hpre].
      apply negb_true_iff in Hy. rewrite Hy.
      now rewrite (b64_argmin_from_first_nan pre x post 1 y 0 Hpre Hx). }
  split; [exact H |].
  unfold Binary64.locate. now rewrite H.
Qed.

Lemma argmin_returns_the_first_nan_witness :
  Binary64.argmin ([2; 1] ++ nan :: [0.5])%float = Some 2%nat
  /\ Binary64.locate [1; 1.5; 2; 2.5]%float ([2; 1] ++ nan :: [0.5])%float
     = Some 2%float.
Proof.
  apply (argmin_returns_the_first_nan [1; 1.5; 2; 2.5]%float [2; 1]%float
           [0.5]%float nan).
  - reflexivity.
  - reflexivity.
Defined.

Lemma b64_r_fine_in_angstrom :
  forallb (fun g => Binary64.within 0.5 2.3 (Report64.Req_angstrom g))
          Binary64.r_fine = true.
Proof.
  vm_compute. reflexivity.
Qed.

(** X15.  The bond length cell 18 prints, [Req/1.89], lies between 0.5 and
    2.3 Angstrom, the range of the sampled bond lengths, for every energy
    spline: in exact arithmetic, and in binary64 (where the division is
    rounded) for every spline as well, NaN energies included. *)
Theorem printed_Req_is_in_the_sampled_range :
  (forall E_spline : R -> R,
      exists Req,
        Analysis.locate Analysis.r_fine
          (Analysis.E_fine E_spline Analysis.r_fine) = Some Req
        /\ (0.5 <= Report.Req_angstrom Req <= 2.3)%R)
  /\ (forall E_spline : float -> float,
        exists Req,
          Binary64.locate Binary64.r_fine
            (Binary64.E_fine E_spline Binary64.r_fine) = Some Req
          /\ Binary64.within 0.5 2.3 (Report64.Req_angstrom Req) = true)
  /\ Forall (fun r => (0.5 <= r <= 2.3)%R) Loader.bond_lengths.
Proof.
  split; [| split].
  - intros E_spline.
    destruct (locate_in_grid E_spline) as (Req & Hloc & _ & Hlo & Hhi).
    exists Req. split; [exact Hloc |].
    unfold Report.Req_angstrom. split.
    + apply (Rmult_le_reg_r 1.89); [lra |].
      replace (Req / 1.89 * 1.89)%R with Req by (field; lra). lra.
    + apply (Rmult_le_reg_r 1.89); [lra |].
      replace (Req / 1.89 * 1.89)%R with Req by (field; lra). lra.
  - intros E_spline.
    destruct (b64_locate_in_grid E_spline) as (Req & Hloc & Hin & _).
    exists Req. split; [exact Hloc |].
    pose proof b64_r_fine_in_angstrom as Hall.
    rewrite forallb_forall in Hall. now apply Hall.
  - unfold Loader.bond_lengths.
    repeat (apply Forall_cons; [lra |]). apply Forall_nil.
Qed.

(** ** Single wells and changes of scale in binary64 *)

Lemma b64_ltb_not_leb (x y : float) :
  (x <? y)%float = true -> (y <=? x)%float = false.
Proof.
  rewrite ltb_spec, leb_spec. unfold SFleb, SFltb.
  rewrite (SFcompare_flip (Prim2SF x) (Prim2SF y)).
  destruct (SFcompare (Prim2SF x) (Prim2SF y)) as [[| |] |];
    simpl; congruence.
Qed.

Lemma b64_ltb_not_nan (x y : float) :
  (x <? y)%float = true -> is_nan x = false /\ is_nan y = false.
Proof.
  unfold is_nan. rewrite ltb_spec, !eqb_spec. unfold SFltb, SFeqb.
  destruct (Prim2SF x) as [sx | sx | | sx mx ex],
           (Prim2SF y) as [sy | sy | | sy my ey]; simpl;
    try discriminate; intros _;
    change (Pos.compare_cont Eq) with Pos.compare;
    rewrite ?Z.compare_refl, ?Pos.compare_refl;
    split; try reflexivity;
    repeat match goal with b : bool |- _ => destruct b end; reflexivity.
Qed.



Lemma single_well_falls (k : nat) (E : list float) (j : nat) :
  Shape64.single_well k E = true -> (j < k)%nat ->
  (nth (S j) E 0 <? nth j E 0)%float = true.
Proof.
  unfold Shape64.single_well. intros H Hj.
  apply andb_true_iff in H as [H _].
  rewrite forallb_forall in H. apply H. apply in_seq. lia.
Qed.

Lemma single_well_rises (k : nat) (E : list float) (j : nat) :
  Shape64.single_well k E = true -> (k <= j)%nat -> (S j < length E)%nat ->
  (nth j E 0 <? nth (S j) E 0)%float = true.
Proof.
  unfold Shape64.single_well. intros H Hk Hj.
  apply andb_true_iff in H as [_ H].
  rewrite forallb_forall in H. apply H. apply in_seq. lia.
Qed.

Lemma single_well_no_nan (k : nat) (E : list float) :
  (k < length E)%nat -> (2 <= length E)%nat ->
  Shape64.single_well k E = true -> Binary64.no_nan E = true.
Proof.
  intros Hk Hlen Hw. unfold Binary64.no_nan. apply forallb_forall.
  intros x Hx. destruct (In_nth _ _ 0%float Hx) as (j & Hj & <-).
  apply negb_true_iff.
  destruct (le_lt_dec k j) as [Hkj | Hjk].
  - destruct (le_lt_dec (length E) (S j)) as [Hlast | Hnext].
    + (* the last element: compare with the one before *)
      destruct j as [| j]; [lia |].
      destruct (le_lt_dec k j) as [Hkj' | Hjk'].
      * apply (b64_ltb_not_nan _ _ (single_well_rises k E j Hw Hkj' Hj)).
      * assert (k = S j) by lia. subst k.
        apply (b64_ltb_not_nan _ _ (single_well_falls (S j) E j Hw Hjk')).
    + apply (b64_ltb_not_nan _ _ (single_well_rises k E j Hw Hkj Hnext)).
  - apply (b64_ltb_not_nan _ _ (single_well_falls k E j Hw Hjk)).
Qed.

Lemma b64_single_well_argmin (k : nat) (E : list float) :
  (k < length E)%nat -> Shape64.single_well k E = true ->
  Binary64.argmin E = Some k.
Proof.
  intros Hk Hw.
  destruct (le_lt_dec 2 (length E)) as [Hlen | Hshort].
  - assert (Hne : E <> []) by (intros ->; simpl in Hk; lia).
    destruct (b64_argmin_spec E Hne (single_well_no_nan k E Hk Hlen Hw))
      as (i & Hi & Hlt & Hmin & _).
    rewrite Hi. f_equal.
    destruct (lt_eq_lt_dec i k) as [[Hik | Heq] | Hki]; [| exact Heq |];
      exfalso.
    + pose proof (single_well_falls k E i Hw Hik) as Hfall.
      apply b64_ltb_not_leb in Hfall.
      rewrite (Hmin (S i)) in Hfall by lia. discriminate.
    + destruct i as [| i]; [lia |].
      pose proof (single_well_rises k E i Hw ltac:(lia) Hlt) as Hrise.
      apply b64_ltb_not_leb in Hrise.
      rewrite (Hmin i) in Hrise by lia. discriminate.
  - destruct E as [| x [| y E]]; simpl in *; try lia.
    assert (k = 0%nat) by lia. subst k.
    now destruct (is_nan x).
Qed.

(** X7.  For an energy curve with a single well on the grid's range
    (strictly decreasing up to its minimum at [rstar], strictly increasing
    after it), the separation the Extremum Locator returns is, in exact
    arithmetic, within one grid spacing, [(2.3*1.89 - 0.5*1.89)/199], of
    [rstar].  In binary64 the locator sees the computed energies only:
    when these fall strictly up to grid index [k] and rise strictly from
    there on, [Req] is the grid point of index [k]; a well too shallow to
    show in the computed energies is not found, and for the well
    [-100 + 1e-17 (r - 1.7)^2], whose energies all round to one value,
    [Req] is the first grid point, [0.5*1.89]. *)
Theorem Req_within_one_step_of_the_well :
  (forall (f : R -> R) (rstar : R),
      (0.5 * 1.89 <= rstar <= 2.3 * 1.89)%R ->
      (forall x y, 0.5 * 1.89 <= x -> x < y -> y <= rstar -> f y < f x)%R ->
      (forall x y, rstar <= x -> x < y -> y <= 2.3 * 1.89 -> f x < f y)%R ->
      exists Req,
        Analysis.locate Analysis.r_fine (Analysis.E_fine f Analysis.r_fine)
        = Some Req
        /\ (Rabs (Req - rstar) <= (2.3 * 1.89 - 0.5 * 1.89) / 199)%R)
  /\ (forall (k : nat) (E : list float),
        length E = length Binary64.r_fine ->
        Shape64.single_well k E = true ->
        (k < length E)%nat ->
        exists Req,
          Binary64.argmin E = Some k
          /\ nth_error Binary64.r_fine k = Some Req
          /\ Binary64.locate Binary64.r_fine E = Some Req)
  /\ (Binary64.argmin Examples64.E_shallow = Some 0%nat
      /\ Binary64.locate Binary64.r_fine Examples64.E_shallow
         = Some Binary64.r_min).
Proof.
  split; [exact locate_single_well |].
  split.
  - intros k E Hlen Hw Hk.
    pose proof (b64_single_well_argmin k E Hk Hw) as Hi.
    destruct (nth_error Binary64.r_fine k) as [Req |] eqn:Hr.
    + exists Req. unfold Binary64.locate. rewrite Hi, Hr. auto.
    + apply nth_error_None in Hr. lia.
  - vm_compute. split; reflexivity.
Qed.

Lemma Req_within_one_step_of_the_well_witness :
  (exists Req,
      Analysis.locate Analysis.r_fine Samples.E_well = Some Req
      /\ (Rabs (Req - 1.7) <= (2.3 * 1.89 - 0.5 * 1.89) / 199)%R)
  /\ (exists Req,
        Binary64.argmin Samples64.E_well = Some 44%nat
        /\ nth_error Binary64.r_fine 44 = Some Req
        /\ Binary64.locate Binary64.r_fine Samples64.E_well = Some Req).
Proof.
  split.
  - apply (proj1 Req_within_one_step_of_the_well Samples.well 1.7%R).
    + lra.
    + intros x y Hx Hxy Hy. unfold Samples.well. nra.
    + intros x y Hx Hxy Hy. unfold Samples.well. nra.
  - apply (proj1 (proj2 Req_within_one_step_of_the_well) 44%nat
             Samples64.E_well).
    + reflexivity.
    + vm_compute. reflexivity.
    + change (44 < 200)%nat. lia.
Defined.




